(** * EagleEyeAI: the construction-site session / anomaly / analytics engine

    A shallow embedding of [ConstructionSiteService]
    (frontend/angular-ui/src/app/services/construction-site.service.ts) and
    of the [Event] interface of [AnprService], with the properties of the
    design document stated and proved over it.

    Modelling conventions.
    - A JavaScript string is a [string] of ASCII characters; [toLowerCase]
      and [toUpperCase] act on the letters A-Z / a-z only.
    - An ISO timestamp string is represented by the number of milliseconds
      [new Date(s).getTime()] yields for it (a [Z]); timestamps that do not
      parse are outside the model.
    - Optional fields ([description?], [rule_name?], [plate_text?]) are
      [option string]; [x || d] and [if (x)] follow JavaScript truthiness
      (absent and the empty string are falsy).
    - [Array.prototype.sort] is stable; its result is the one of a stable
      insertion sort with the same comparator.
    - A [Map] that is only looked up is a [gmap]; a [Map] that is iterated
      with [forEach] is an association list in insertion order.
    - Durations are exact rationals ([Q]); IEEE rounding is not modelled. *)

From Stdlib Require Import ZArith QArith Lia Lqa Bool List Ascii String Permutation Sorted.
From stdpp Require Import gmap strings list fin_maps.
Import ListNotations.

Local Open Scope string_scope.
Local Open Scope list_scope.
Local Open Scope Z_scope.

(** ** Strings *)

Module Str.

Definition toLowerChar (c : ascii) : ascii :=
  let n := nat_of_ascii c in
  if ((65 <=? n)%nat && (n <=? 90)%nat)%bool then ascii_of_nat (n + 32) else c.

Definition toUpperChar (c : ascii) : ascii :=
  let n := nat_of_ascii c in
  if ((97 <=? n)%nat && (n <=? 122)%nat)%bool then ascii_of_nat (n - 32) else c.

Fixpoint toLowerCase (s : string) : string :=
  match s with
  | EmptyString => EmptyString
  | String c s' => String (toLowerChar c) (toLowerCase s')
  end.

Fixpoint toUpperCase (s : string) : string :=
  match s with
  | EmptyString => EmptyString
  | String c s' => String (toUpperChar c) (toUpperCase s')
  end.

(** [startsWith s sub]: [sub] is a prefix of [s]. *)
Fixpoint startsWith (s sub : string) {struct sub} : bool :=
  match sub, s with
  | EmptyString, _ => true
  | String _ _, EmptyString => false
  | String a sub', String b s' => Ascii.eqb a b && startsWith s' sub'
  end.

(** [s.includes(sub)] *)
Fixpoint includes (s sub : string) : bool :=
  startsWith s sub ||
  match s with
  | EmptyString => false
  | String _ s' => includes s' sub
  end.

(** [s.substring(0, n)] *)
Fixpoint take (n : nat) (s : string) : string :=
  match n, s with
  | S n', String c s' => String c (take n' s')
  | _, _ => EmptyString
  end.

Fixpoint drop (n : nat) (s : string) : string :=
  match n, s with
  | S n', String _ s' => drop n' s'
  | _, _ => s
  end.

(** The character classes of the pattern [/gate\s*([a-z0-9]+)/i]. *)
Definition isSpace (c : ascii) : bool :=
  let n := nat_of_ascii c in
  ((n =? 32) || ((9 <=? n) && (n <=? 13)))%nat.

Definition isAlnum (c : ascii) : bool :=
  let n := nat_of_ascii (toLowerChar c) in
  (((97 <=? n) && (n <=? 122)) || ((48 <=? n) && (n <=? 57)))%nat.

Fixpoint skipSpaces (s : string) : string :=
  match s with
  | String c s' => if isSpace c then skipSpaces s' else s
  | EmptyString => EmptyString
  end.

Fixpoint takeAlnum (s : string) : string :=
  match s with
  | String c s' => if isAlnum c then String c (takeAlnum s') else EmptyString
  | EmptyString => EmptyString
  end.

(** The pattern anchored at the head of [s]; the result is capture group 1. *)
Definition gateAt (s : string) : option string :=
  if startsWith (toLowerCase (take 4 s)) "gate" then
    let tok := takeAlnum (skipSpaces (drop 4 s)) in
    if String.eqb tok "" then None else Some tok
  else None.

(** [s.match(/gate\s*([a-z0-9]+)/i)]: leftmost match, capture group 1. *)
Fixpoint matchGate (s : string) : option string :=
  match gateAt s with
  | Some tok => Some tok
  | None =>
      match s with
      | EmptyString => None
      | String _ s' => matchGate s'
      end
  end.

(** [x || ''] and friends: the string an optional value coalesces to. *)
Definition orElse (o : option string) (d : string) : string :=
  match o with
  | Some s => if String.eqb s "" then d else s
  | None => d
  end.

(** JavaScript truthiness of an optional string. *)
Definition truthy (o : option string) : bool :=
  match o with
  | Some s => negb (String.eqb s "")
  | None => false
  end.

(** [a === b] on optional strings against a literal. *)
Definition eqLit (o : option string) (lit : string) : bool :=
  match o with
  | Some s => String.eqb s lit
  | None => false
  end.

End Str.

(** ** Data model *)

Inductive Direction := Entry | Exit.
Inductive VehicleCategory := MaterialTruck | Machinery | Staff | Unknown.
Inductive AlertType := UnauthorizedExit | NoMatchingEntry | AfterHoursExit.

Definition Direction_eqb (a b : Direction) : bool :=
  match a, b with
  | Entry, Entry | Exit, Exit => true
  | _, _ => false
  end.

Definition AlertType_eqb (a b : AlertType) : bool :=
  match a, b with
  | UnauthorizedExit, UnauthorizedExit
  | NoMatchingEntry, NoMatchingEntry
  | AfterHoursExit, AfterHoursExit => true
  | _, _ => false
  end.

(** [Event] of anpr.service.ts (the field [vehicle_id] is never read). *)
Module Event.
Record t := mk {
  id : Z;
  event_type : string;
  description : option string;
  rule_name : option string;
  timestamp : Z;
  plate_text : option string
}.
End Event.

(** [ConstructionSiteEvent] *)
Module CSE.
Record t := mk {
  id : Z;
  plateNumber : string;
  vehicleCategory : VehicleCategory;
  direction : Direction;
  gateName : string;
  timestamp : Z;
  decision : string;
  eventType : string;
  description : option string;
  ruleName : option string
}.
End CSE.

(** [MaterialTheftAlert] *)
Module Alert.
Record t := mk {
  id : Z;
  plateNumber : string;
  alertType : AlertType;
  message : string;
  timestamp : Z;
  description : option string
}.
End Alert.

(** [VendorAnalytics] *)
Module VA.
Record t := mk {
  vendorName : string;
  deliveriesToday : nat;
  averageDuration : option Q;
  suspiciousExits : nat;
  lastDeliveryTime : option Z
}.
End VA.

(** The value type of the [vehicleEntries] map. *)
Record SessionState := mkState {
  firstSeen : Z;
  lastSeen : Z;
  entryCount : nat;
  exitCount : nat
}.

(** ** Stable sorting with a JavaScript comparator *)

Section Sort.
Context {A : Type}.
Variable cmp : A -> A -> Z.

Fixpoint insertSorted (x : A) (l : list A) : list A :=
  match l with
  | [] => [x]
  | y :: l' => if cmp x y <=? 0 then x :: y :: l' else y :: insertSorted x l'
  end.

Definition sort (l : list A) : list A := fold_right insertSorted [] l.

(** Ascending order of an integer key. *)
Definition keySorted (key : A -> Z) (l : list A) : Prop :=
  StronglySorted (fun a b => key a <= key b) l.
End Sort.

(** ** EventNormalizer *)

Definition determineGateName (ruleName description : option string) : string :=
  if Str.truthy ruleName then
    let r := Str.orElse ruleName "" in
    if Str.includes (Str.toLowerCase r) "gate" then r else "Gate " +:+ r
  else
    match (if Str.truthy description then Str.matchGate (Str.orElse description "") else None) with
    | Some tok => "Gate " +:+ tok
    | None => "Main Gate"
    end.

Definition determineVehicleCategory (plateNumber : string) (description : option string)
  : VehicleCategory :=
  let desc := Str.toLowerCase (Str.orElse description "") in
  if Str.includes desc "truck" || Str.includes desc "material" || Str.includes desc "delivery"
  then MaterialTruck
  else if Str.includes desc "machinery" || Str.includes desc "excavator" || Str.includes desc "crane"
  then Machinery
  else if Str.includes desc "staff" || Str.includes desc "employee" || Str.includes desc "personnel"
  then Staff
  else MaterialTruck.

(** ** SessionTracker: [transformToConstructionSiteEvents] *)

Definition HOURS_2 : Z := 2 * 60 * 60 * 1000.
Definition MINUTES_30 : Z := 30 * 60 * 1000.
Definition HOURS_24 : Z := 24 * 60 * 60 * 1000.

(** [event.plate_text || 'UNKNOWN'] *)
Definition plateNumberOf (event : Event.t) : string :=
  Str.orElse (Event.plate_text event) "UNKNOWN".

Definition gateNameOf (event : Event.t) : string :=
  determineGateName (Event.rule_name event) (Event.description event).

(** The two early [return]s of the loop body. *)
Definition unknownPlate (event : Event.t) : bool :=
  String.eqb (plateNumberOf event) "UNKNOWN".

Definition invalidPlateFormat (event : Event.t) : bool :=
  String.eqb (gateNameOf event) "Gate invalid_plate_format"
  || Str.eqLit (Event.rule_name event) "invalid_plate_format".

Definition skipped (event : Event.t) : bool :=
  unknownPlate event || invalidPlateFormat event.

Definition isAllowEvent (event : Event.t) : bool :=
  String.eqb (Event.event_type event) "ALLOW".

(** [desc.includes('exit') || desc.includes('departure') || desc.includes('leaving')],
    with [desc = (description || '').toLowerCase()]. *)
Definition exitWords (description : option string) : bool :=
  let desc := Str.toLowerCase (Str.orElse description "") in
  Str.includes desc "exit" || Str.includes desc "departure" || Str.includes desc "leaving".

Definition entryWords (description : option string) : bool :=
  let desc := Str.toLowerCase (Str.orElse description "") in
  Str.includes desc "entry" || Str.includes desc "arrival" || Str.includes desc "entering".

Definition incEntry (s : SessionState) : SessionState :=
  mkState (firstSeen s) (lastSeen s) (S (entryCount s)) (exitCount s).

Definition incExit (s : SessionState) : SessionState :=
  mkState (firstSeen s) (lastSeen s) (entryCount s) (S (exitCount s)).

Definition setFirstSeen (t : Z) (s : SessionState) : SessionState :=
  mkState t (lastSeen s) (entryCount s) (exitCount s).

Definition setLastSeen (t : Z) (s : SessionState) : SessionState :=
  mkState (firstSeen s) t (entryCount s) (exitCount s).

(** Strategies 1 to 6 on the state object of the plate, before
    [vehicleState.lastSeen = eventTime]. *)
Definition strategies (vehicleState : SessionState) (eventTime : Z)
    (description : option string) : Direction * SessionState :=
  let timeSinceLastSeen := eventTime - lastSeen vehicleState in
  let timeSinceFirstSeen := eventTime - firstSeen vehicleState in
  if ((entryCount vehicleState =? 0) && (exitCount vehicleState =? 0))%nat then
    (Entry, incEntry vehicleState)
  else if HOURS_2 <? timeSinceLastSeen then
    (Entry, setFirstSeen eventTime (incEntry vehicleState))
  else if (exitCount vehicleState <? entryCount vehicleState)%nat then
    (Exit, incExit vehicleState)
  else if exitWords description then
    (Exit, incExit vehicleState)
  else if entryWords description then
    (Entry, incEntry vehicleState)
  else if timeSinceFirstSeen <? MINUTES_30 then
    (Entry, incEntry vehicleState)
  else
    (Entry, incEntry vehicleState).

(** The ALLOW branch on the state of one plate ([None]: the map has no entry
    for it yet). *)
Definition trackAllow (entry : option SessionState) (eventTime : Z)
    (description : option string) : Direction * SessionState :=
  let vehicleState :=
    match entry with
    | Some s => s
    | None => mkState eventTime eventTime 0 0
    end in
  let '(direction, s) := strategies vehicleState eventTime description in
  (direction, setLastSeen eventTime s).

(** The non-ALLOW branch. *)
Definition inferDirection (event_type : string) (description : option string) : Direction :=
  if String.eqb event_type "ALERT" then
    if exitWords description then Exit
    else if entryWords description then Entry
    else Exit
  else Entry.

Definition mkClassified (event : Event.t) (direction : Direction) : CSE.t :=
  CSE.mk (Event.id event) (plateNumberOf event)
    (determineVehicleCategory (plateNumberOf event) (Event.description event))
    direction (gateNameOf event) (Event.timestamp event)
    (Event.event_type event) (Event.event_type event)
    (Event.description event) (Event.rule_name event).

(** The body of [sortedEvents.forEach]: the new content of [vehicleEntries]
    and the record pushed onto [result], if any. *)
Definition forEachBody (vehicleEntries : gmap string SessionState) (event : Event.t)
  : gmap string SessionState * option CSE.t :=
  let plateNumber := plateNumberOf event in
  if String.eqb plateNumber "UNKNOWN" then (vehicleEntries, None)
  else if invalidPlateFormat event then (vehicleEntries, None)
  else if isAllowEvent event then
    let '(direction, s) :=
      trackAllow (vehicleEntries !! plateNumber) (Event.timestamp event)
        (Event.description event) in
    (<[plateNumber := s]> vehicleEntries, Some (mkClassified event direction))
  else if invalidPlateFormat event then (vehicleEntries, None)
  else
    (vehicleEntries,
     Some (mkClassified event
             (inferDirection (Event.event_type event) (Event.description event)))).

Definition pushOpt {A} (result : list A) (o : option A) : list A :=
  match o with
  | Some x => result ++ [x]
  | None => result
  end.

Definition forEachStep (acc : gmap string SessionState * list CSE.t) (event : Event.t)
  : gmap string SessionState * list CSE.t :=
  let '(vehicleEntries, o) := forEachBody (fst acc) event in
  (vehicleEntries, pushOpt (snd acc) o).

Definition byTimeAsc (a b : Event.t) : Z := Event.timestamp a - Event.timestamp b.
Definition byTimeDesc (a b : CSE.t) : Z := CSE.timestamp b - CSE.timestamp a.

(** The state of [vehicleEntries] and [result] when the loop ends. *)
Definition trackSessions (events : list Event.t) : gmap string SessionState * list CSE.t :=
  fold_left forEachStep (sort byTimeAsc events) (∅, []).

Definition transformToConstructionSiteEvents (events : list Event.t) : list CSE.t :=
  sort byTimeDesc (snd (trackSessions events)).

(** The ALLOW branch iterated over the records of a single plate: what the
    loop does to one key of [vehicleEntries]. *)
Fixpoint plateSession (entry : option SessionState) (events : list Event.t) : list CSE.t :=
  match events with
  | [] => []
  | event :: events' =>
      let '(direction, s) :=
        trackAllow entry (Event.timestamp event) (Event.description event) in
      mkClassified event direction :: plateSession (Some s) events'
  end.

(** The records of plate [p] that reach the ALLOW branch. *)
Definition trackedFor (p : string) (event : Event.t) : bool :=
  negb (skipped event) && String.eqb (plateNumberOf event) p && isAllowEvent event.

Definition allowedFor (p : string) (c : CSE.t) : bool :=
  String.eqb (CSE.plateNumber c) p && String.eqb (CSE.decision c) "ALLOW".

(** The deprecated helper, kept by the source for backward compatibility. *)
Definition determineDirection (eventType : string) (description : option string) : Direction :=
  if exitWords description then Exit
  else if entryWords description then Entry
  else if String.eqb eventType "ALERT" then Exit
  else Entry.

(** ** Insertion-ordered maps ([Map] objects that are iterated) *)

Section OrderedMap.
Context {V : Type}.

Fixpoint omHas (k : string) (m : list (string * V)) : bool :=
  match m with
  | [] => false
  | (k', _) :: m' => String.eqb k' k || omHas k m'
  end.

Fixpoint omGet (k : string) (m : list (string * V)) : option V :=
  match m with
  | [] => None
  | (k', v) :: m' => if String.eqb k' k then Some v else omGet k m'
  end.

(** In-place mutation of the value stored under [k]. *)
Fixpoint omAlter (f : V -> V) (k : string) (m : list (string * V)) : list (string * V) :=
  match m with
  | [] => []
  | (k', v) :: m' =>
      if String.eqb k' k then (k', f v) :: m' else (k', v) :: omAlter f k m'
  end.

(** [if (!m.has(k)) m.set(k, v0)] *)
Definition omEnsure (k : string) (v0 : V) (m : list (string * V)) : list (string * V) :=
  if omHas k m then m else m ++ [(k, v0)].

(** The grouping idiom of the source: create the entry for [k] if it is
    missing, then mutate the value stored under [k]. *)
Definition omUpsert (k : string) (v0 : V) (f : V -> V) (m : list (string * V))
  : list (string * V) :=
  omAlter f k (omEnsure k v0 m).

End OrderedMap.

(** ** AnomalyDetector: [identifyTheftAlerts] *)

Definition isExit (e : CSE.t) : bool := Direction_eqb (CSE.direction e) Exit.
Definition isEntry (e : CSE.t) : bool := Direction_eqb (CSE.direction e) Entry.
Definition isAlert (e : CSE.t) : bool := String.eqb (CSE.decision e) "ALERT".
Definition isAllow (e : CSE.t) : bool := String.eqb (CSE.decision e) "ALLOW".

Definition mkAlert (alertType : AlertType) (message : string)
    (plateNumber : string) (exitEvent : CSE.t) : Alert.t :=
  Alert.mk (CSE.id exitEvent) plateNumber alertType message
    (CSE.timestamp exitEvent) (CSE.description exitEvent).

Definition unauthorizedExitAlert :=
  mkAlert UnauthorizedExit "Unauthorized material movement detected".
Definition noMatchingEntryAlert :=
  mkAlert NoMatchingEntry "Vehicle exited without recorded entry".
Definition afterHoursExitAlert :=
  mkAlert AfterHoursExit "Material movement detected outside working hours".

(** The predicate of [entries.some(...)]. *)
Definition entryMatches (exitEvent entry : CSE.t) : bool :=
  let exitTime := CSE.timestamp exitEvent in
  let entryTime := CSE.timestamp entry in
  (entryTime <? exitTime) && (exitTime - entryTime <? HOURS_24).

Definition groupByPlateStep (plateEntries : list (string * list CSE.t)) (event : CSE.t)
  : list (string * list CSE.t) :=
  omUpsert (CSE.plateNumber event) [] (fun l => l ++ [event]) plateEntries.

Definition groupByPlate (events : list CSE.t) : list (string * list CSE.t) :=
  fold_left groupByPlateStep events [].

Definition alertsByTimeDesc (a b : Alert.t) : Z := Alert.timestamp b - Alert.timestamp a.

Section Host.
(** What the host supplies: the local hour of an instant
    ([new Date(t).getHours()]), the local midnight before an instant
    ([setHours(0, 0, 0, 0)] then [getTime()]) and the current instant
    ([new Date()]). *)
Variable getHours : Z -> Z.
Variable localMidnight : Z -> Z.
Variable now : Z.

Definition afterHours (exitEvent : CSE.t) : bool :=
  let hour := getHours (CSE.timestamp exitEvent) in
  (hour <? 6) || (20 <=? hour).

(** The body of [plateEntries.forEach]. *)
Definition plateAlerts (group : string * list CSE.t) : list Alert.t :=
  let '(plateNumber, plateEvents) := group in
  let exits := List.filter (fun e => isExit e && isAlert e) plateEvents in
  let entries := List.filter isEntry plateEvents in
  map (unauthorizedExitAlert plateNumber) exits
  ++ map (noMatchingEntryAlert plateNumber)
       (List.filter (fun exitEvent => negb (existsb (entryMatches exitEvent) entries)) exits)
  ++ map (afterHoursExitAlert plateNumber) (List.filter afterHours exits).

Definition identifyTheftAlerts (events : list CSE.t) : list Alert.t :=
  sort alertsByTimeDesc (flat_map plateAlerts (groupByPlate events)).

(** ** AnalyticsAggregator: [calculateVendorAnalytics] *)

Definition stateCodes : list (string * string) :=
  [ ("MH", "Maharashtra"); ("DL", "Delhi"); ("KA", "Karnataka"); ("TN", "Tamil Nadu");
    ("GJ", "Gujarat"); ("RJ", "Rajasthan"); ("UP", "Uttar Pradesh"); ("WB", "West Bengal");
    ("MP", "Madhya Pradesh"); ("AP", "Andhra Pradesh"); ("TS", "Telangana"); ("KL", "Kerala");
    ("HR", "Haryana"); ("PB", "Punjab"); ("OR", "Odisha"); ("BR", "Bihar"); ("AS", "Assam");
    ("JH", "Jharkhand"); ("UT", "Uttarakhand"); ("HP", "Himachal Pradesh") ].

Definition getVendorName (plateNumber : string) : string :=
  if (2 <=? String.length plateNumber)%nat then
    let stateCode := Str.toUpperCase (Str.take 2 plateNumber) in
    match omGet stateCode stateCodes with
    | Some name => name
    | None => "Vendor " +:+ stateCode
    end
  else "Unknown Vendor".

Record VendorData := mkVendorData {
  entries : list CSE.t;
  exits : list CSE.t
}.

Definition pushEvent (event : CSE.t) (vendorData : VendorData) : VendorData :=
  if isEntry event
  then mkVendorData (entries vendorData ++ [event]) (exits vendorData)
  else mkVendorData (entries vendorData) (exits vendorData ++ [event]).

Definition groupByVendorStep (vendorMap : list (string * VendorData)) (event : CSE.t)
  : list (string * VendorData) :=
  if negb (isAllow event) then vendorMap
  else
    let vendorName := getVendorName (CSE.plateNumber event) in
    omUpsert vendorName (mkVendorData [] []) (pushEvent event) vendorMap.

Definition groupByVendor (events : list CSE.t) : list (string * VendorData) :=
  fold_left groupByVendorStep events [].

(** The predicate of [vendorData.exits.find(...)]. *)
Definition exitMatches (entry exit : CSE.t) : bool :=
  let exitTime := CSE.timestamp exit in
  let entryTime := CSE.timestamp entry in
  (entryTime <? exitTime) && (exitTime - entryTime <? HOURS_24).

Definition minutesBetween (entry exit : CSE.t) : Q :=
  (inject_Z (CSE.timestamp exit - CSE.timestamp entry) / inject_Z (1000 * 60))%Q.

(** What one entry pushes onto [durations]. *)
Definition durationOf (exits : list CSE.t) (entry : CSE.t) : list Q :=
  match List.find (exitMatches entry) exits with
  | Some matchingExit => [minutesBetween entry matchingExit]
  | None => []
  end.

Definition average (durations : list Q) : option Q :=
  if (0 <? length durations)%nat
  then Some (fold_left Qplus durations 0%Q / inject_Z (Z.of_nat (length durations)))%Q
  else None.

(** The body of [vendorMap.forEach]. *)
Definition vendorStats (group : string * VendorData) : VA.t :=
  let '(vendorName, vendorData) := group in
  let today := localMidnight now in
  let deliveriesToday :=
    length (List.filter (fun entry => localMidnight (CSE.timestamp entry) =? today)
              (entries vendorData)) in
  let durations := flat_map (durationOf (exits vendorData)) (entries vendorData) in
  let suspiciousExits := length (List.filter isAlert (exits vendorData)) in
  let lastEntry := head (sort byTimeDesc (entries vendorData)) in
  VA.mk vendorName deliveriesToday (average durations) suspiciousExits
    (option_map CSE.timestamp lastEntry).

Definition byDeliveriesDesc (a b : VA.t) : Z :=
  Z.of_nat (VA.deliveriesToday b) - Z.of_nat (VA.deliveriesToday a).

Definition calculateVendorAnalytics (events : list CSE.t) : list VA.t :=
  sort byDeliveriesDesc (map vendorStats (groupByVendor events)).

End Host.

(** A host whose local time is UTC, for running the model. *)
Definition utcHours (t : Z) : Z := (t / 3600000) mod 24.
Definition utcMidnight (t : Z) : Z := t - t mod 86400000.

(** ** The design document's wording, where it is compared with the code *)

Module Spec.

(** Section 4.2, non-ALLOW records: keywords first, whatever the decision,
    then the default by decision. *)
Definition nonAllowDirection (decision : string) (description : option string) : Direction :=
  if exitWords description then Exit
  else if entryWords description then Entry
  else if String.eqb decision "ALERT" then Exit
  else Entry.

(** Section 3 / 4.1, [vehicleCategory]: Machinery, then Staff, then
    MaterialTruck keywords; default MaterialTruck. *)
Definition vehicleCategory (description : option string) : VehicleCategory :=
  let desc := Str.toLowerCase (Str.orElse description "") in
  if Str.includes desc "machinery" || Str.includes desc "excavator" || Str.includes desc "crane"
  then Machinery
  else if Str.includes desc "staff" || Str.includes desc "employee" || Str.includes desc "personnel"
  then Staff
  else if Str.includes desc "truck" || Str.includes desc "material" || Str.includes desc "delivery"
  then MaterialTruck
  else MaterialTruck.

End Spec.

(** [w] occurs in [s] as a contiguous substring. *)
Definition occursIn (w s : string) : Prop :=
  exists pre post, s = pre +:+ w +:+ post.

Definition anyOccurs (ws : list string) (s : string) : Prop :=
  Exists (fun w => occursIn w s) ws.

Definition truckWords : list string := ["truck"; "material"; "delivery"].
Definition machineryWords : list string := ["machinery"; "excavator"; "crane"].
Definition staffWords : list string := ["staff"; "employee"; "personnel"].

(** ** The alert conditions, stated on the whole classified sequence *)

Definition alertExit (e : CSE.t) : bool := isExit e && isAlert e.

(** [entry] is an Entry record of the plate of [exitEvent], earlier than it
    by less than 24 hours. *)
Definition samePlateEntry (exitEvent entry : CSE.t) : bool :=
  String.eqb (CSE.plateNumber entry) (CSE.plateNumber exitEvent)
  && (isEntry entry && entryMatches exitEvent entry).

Definition unmatchedAlertExit (events : list CSE.t) (e : CSE.t) : bool :=
  alertExit e && negb (existsb (samePlateEntry e) events).

Definition afterHoursAlertExit (getHours : Z -> Z) (e : CSE.t) : bool :=
  alertExit e && afterHours getHours e.

Definition typeIs (T : AlertType) (a : Alert.t) : bool :=
  AlertType_eqb (Alert.alertType a) T.

Definition plateIs (p : string) (e : CSE.t) : bool :=
  String.eqb (CSE.plateNumber e) p.

(** ** The vendor groups, stated on the whole classified sequence *)

Definition vendorIs (v : string) (e : CSE.t) : bool :=
  String.eqb (getVendorName (CSE.plateNumber e)) v.

Definition vendorEntries (v : string) (events : list CSE.t) : list CSE.t :=
  List.filter (fun e => isAllow e && vendorIs v e && isEntry e) events.

Definition vendorExits (v : string) (events : list CSE.t) : list CSE.t :=
  List.filter (fun e => isAllow e && vendorIs v e && negb (isEntry e)) events.

(** [x] is, among the exits that follow [entry] by less than 24 hours, one
    with the greatest timestamp. *)
Definition latestMatch (exits : list CSE.t) (entry x : CSE.t) : Prop :=
  In x exits /\ exitMatches entry x = true /\
  forall x', In x' exits -> exitMatches entry x' = true ->
             CSE.timestamp x' <= CSE.timestamp x.

Definition hasMatch (exits : list CSE.t) (entry : CSE.t) : bool :=
  existsb (exitMatches entry) exits.

Definition pairMinutes (p : CSE.t * CSE.t) : Q := minutesBetween (fst p) (snd p).

Definition Qsum (l : list Q) : Q := fold_right Qplus 0%Q l.

(** The (entry, exit) pairs behind [durations]. *)
Definition matchedPairs (exits entries : list CSE.t) : list (CSE.t * CSE.t) :=
  flat_map (fun entry =>
              match List.find (exitMatches entry) exits with
              | Some matchingExit => [(entry, matchingExit)]
              | None => []
              end) entries.

Module SpecDuration.

(** Section 4.4, duration matching: the earliest exit that follows the
    entry by less than 24 hours (the first one, among equals). *)
Definition earliestExit (entry : CSE.t) (exits : list CSE.t) : option CSE.t :=
  fold_left
    (fun best exit =>
       if exitMatches entry exit then
         match best with
         | None => Some exit
         | Some b => if CSE.timestamp exit <? CSE.timestamp b then Some exit else Some b
         end
       else best)
    exits None.

Definition durationOf (exits : list CSE.t) (entry : CSE.t) : list Q :=
  match earliestExit entry exits with
  | Some matchingExit => [minutesBetween entry matchingExit]
  | None => []
  end.

Definition averageDuration (entries exits : list CSE.t) : option Q :=
  average (flat_map (durationOf exits) entries).

End SpecDuration.

(** ** Sample inputs *)

Definition sampleEvent (id : Z) (event_type : string) (description : option string)
    (timestamp : Z) (plate : string) : Event.t :=
  Event.mk id event_type description None timestamp (Some plate).

Definition minute : Z := 60 * 1000.
Definition hour : Z := 60 * minute.

(** One plate seen three times with ALLOW, among records of other plates and
    other decisions, in arrival (not time) order. *)
Definition sampleDay : list Event.t :=
  [ sampleEvent 3 "ALLOW" None (9 * hour + 3 * hour) "MH12AB1234";
    sampleEvent 7 "ALERT" (Some "Vehicle leaving") (9 * hour + 5 * minute) "MH12AB1234";
    sampleEvent 1 "ALLOW" (Some "Delivery truck") (9 * hour) "MH12AB1234";
    sampleEvent 8 "ALLOW" None (9 * hour + 2 * minute) "KA05XY0001";
    sampleEvent 2 "ALLOW" None (9 * hour + 10 * minute) "MH12AB1234";
    Event.mk 9 "ALLOW" None (Some "invalid_plate_format") (9 * hour + 20 * minute)
      (Some "MH12AB1234") ].

(** A LOG_ONLY record whose description names an exit. *)
Definition logOnlyExit : Event.t :=
  sampleEvent 11 "LOG_ONLY" (Some "Vehicle exit logged") (10 * hour) "DL01AA0001".

Definition alertLeaving : Event.t :=
  sampleEvent 12 "ALERT" (Some "Vehicle leaving") (10 * hour) "DL01AA0001".

(** One truck, two visits of ten minutes each: in at 09:00, out at 09:10,
    in at 09:40, out at 09:50. *)
Definition sampleVisits : list Event.t :=
  [ sampleEvent 1 "ALLOW" None (9 * hour) "MH12AB1234";
    sampleEvent 2 "ALLOW" None (9 * hour + 10 * minute) "MH12AB1234";
    sampleEvent 3 "ALLOW" None (9 * hour + 40 * minute) "MH12AB1234";
    sampleEvent 4 "ALLOW" None (9 * hour + 50 * minute) "MH12AB1234" ].

(** Two trucks of one vendor: the first in at 09:00 and out at 09:40, the
    second in at 09:50. *)
Definition sampleVendorDay : list Event.t :=
  [ sampleEvent 31 "ALLOW" None (9 * hour) "KA01AA1111";
    sampleEvent 32 "ALLOW" None (9 * hour + 40 * minute) "KA01AA1111";
    sampleEvent 33 "ALLOW" None (9 * hour + 50 * minute) "KA02BB2222" ].

(** A classified record as the tracker would emit it. *)
Definition sampleClassified (id : Z) (decision : string) (direction : Direction)
    (timestamp : Z) (plate : string) : CSE.t :=
  CSE.mk id plate MaterialTruck direction "Main Gate" timestamp decision decision None None.

(** ** Notions used to state further properties of the code *)

(** A classified record with its direction overwritten. *)
Definition withDirection (d : Direction) (c : CSE.t) : CSE.t :=
  CSE.mk (CSE.id c) (CSE.plateNumber c) (CSE.vehicleCategory c) d (CSE.gateName c)
    (CSE.timestamp c) (CSE.decision c) (CSE.eventType c) (CSE.description c) (CSE.ruleName c).

(** The entry of [vehicleEntries] for one plate after its records
    [events] went through the ALLOW branch. *)
Definition plateState (entry : option SessionState) (events : list Event.t)
  : option SessionState :=
  fold_left
    (fun o event =>
       Some (snd (trackAllow o (Event.timestamp event) (Event.description event))))
    events entry.

Definition countDirection (d : Direction) (l : list CSE.t) : nat :=
  length (List.filter (fun c => Direction_eqb (CSE.direction c) d) l).

(** The counters of a plate's entry in the session map, if any. *)
Definition entriesOf (o : option SessionState) : nat :=
  match o with Some s => entryCount s | None => 0 end.

Definition exitsOf (o : option SessionState) : nat :=
  match o with Some s => exitCount s | None => 0 end.

(** Newest first. *)
Definition newestFirst {A : Type} (time : A -> Z) (l : list A) : Prop :=
  StronglySorted (fun a b => time b <= time a) l.

(** The ALLOW Entry records of local day [today]. *)
Definition deliveredOn (localMidnight : Z -> Z) (today : Z) (e : CSE.t) : bool :=
  isAllow e && isEntry e && (localMidnight (CSE.timestamp e) =? today).

(** Strings made of characters of one class. *)
Fixpoint allChars (f : ascii -> bool) (s : string) : bool :=
  match s with
  | EmptyString => true
  | String c s' => f c && allChars f s'
  end.

(** What the pattern [/gate\s*([a-z0-9]+)/i] matches at the head of a
    string: the letters of "gate" in any case, white space, then the
    longest run of letters and digits, which is capture group 1. *)
Definition endsRun (f : ascii -> bool) (post : string) : Prop :=
  match post with
  | EmptyString => True
  | String c _ => f c = false
  end.

Definition gateMatchAt (rest tok : string) : Prop :=
  exists g ws post,
    rest = g +:+ ws +:+ tok +:+ post /\
    Str.toLowerCase g = "gate" /\
    allChars Str.isSpace ws = true /\
    allChars Str.isAlnum tok = true /\ tok <> "" /\
    endsRun Str.isAlnum post.

(** ** The caller: [ConstructionSiteComponent] *)





(** * Properties *)

(** ** Stable sorting *)

Section SortFacts.
Context {A : Type}.
Variable cmp : A -> A -> Z.

Lemma insertSorted_perm (x : A) (l : list A) : Permutation (insertSorted cmp x l) (x :: l).
Proof.
  induction l as [|y l IH]; simpl; [reflexivity|].
  destruct (cmp x y <=? 0); [reflexivity|].
  rewrite IH. apply perm_swap.
Qed.

Lemma sort_perm (l : list A) : Permutation (sort cmp l) l.
Proof.
  induction l as [|x l IH]; simpl; [reflexivity|].
  rewrite insertSorted_perm. now constructor.
Qed.

Lemma insertSorted_head (x : A) (l : list A) :
  Forall (fun z => cmp x z <= 0) l -> insertSorted cmp x l = x :: l.
Proof.
  destruct l as [|y l]; simpl; [reflexivity|].
  intros H. inversion H as [|? ? Hy _]; subst.
  apply Z.leb_le in Hy. now rewrite Hy.
Qed.

Lemma filter_insertSorted_out (f : A -> bool) (x : A) (l : list A) :
  f x = false -> List.filter f (insertSorted cmp x l) = List.filter f l.
Proof.
  intros Hx. induction l as [|y l IH]; simpl.
  - now rewrite Hx.
  - destruct (cmp x y <=? 0); simpl.
    + now rewrite Hx.
    + now rewrite IH.
Qed.

(** The comparator orders by an integer key: [cmp a b] is [key a - key b]
    up to sign. *)
Variable key : A -> Z.
Hypothesis cmp_key : forall a b, cmp a b <= 0 <-> key a <= key b.

Local Abbreviation keySorted := (keySorted key).

Lemma insertSorted_sorted (x : A) (l : list A) :
  keySorted l -> keySorted (insertSorted cmp x l).
Proof.
  unfold keySorted. induction 1 as [|y l Hs IH Hy]; simpl.
  - repeat constructor.
  - destruct (cmp x y <=? 0) eqn:E.
    + apply Z.leb_le, cmp_key in E.
      constructor; [now constructor|].
      constructor; [exact E|].
      eapply Forall_impl; [exact Hy|]. simpl. intros; lia.
    + apply Z.leb_gt in E.
      assert (key y <= key x).
      { destruct (Z.le_gt_cases (key x) (key y)) as [Hle|Hgt]; [|lia].
        apply cmp_key in Hle. lia. }
      constructor; [exact IH|].
      eapply Permutation_Forall; [symmetry; apply insertSorted_perm|].
      now constructor.
Qed.

Lemma sort_sorted (l : list A) : keySorted (sort cmp l).
Proof.
  induction l as [|x l IH]; simpl; [constructor|].
  now apply insertSorted_sorted.
Qed.

Lemma keySorted_filter (f : A -> bool) (l : list A) :
  keySorted l -> keySorted (List.filter f l).
Proof.
  unfold keySorted. induction 1 as [|y l Hs IH Hy]; simpl; [constructor|].
  destruct (f y); [|exact IH].
  constructor; [exact IH|].
  apply List.Forall_forall. intros z Hz. apply filter_In in Hz as [Hz _].
  rewrite List.Forall_forall in Hy. now apply Hy.
Qed.

Lemma filter_insertSorted_in (f : A -> bool) (x : A) (l : list A) :
  f x = true -> keySorted l ->
  List.filter f (insertSorted cmp x l) = insertSorted cmp x (List.filter f l).
Proof.
  intros Hx. unfold keySorted. induction 1 as [|y l Hs IH Hy]; simpl.
  - now rewrite Hx.
  - destruct (cmp x y <=? 0) eqn:E; simpl.
    + rewrite Hx. destruct (f y) eqn:Fy; simpl.
      * now rewrite E.
      * symmetry. apply insertSorted_head.
        apply Z.leb_le, cmp_key in E.
        apply List.Forall_forall. intros z Hz. apply filter_In in Hz as [Hz _].
        rewrite List.Forall_forall in Hy. apply cmp_key. specialize (Hy z Hz). lia.
    + destruct (f y) eqn:Fy; simpl.
      * now rewrite E, IH.
      * exact IH.
Qed.

(** Filtering commutes with a stable sort. *)
Lemma filter_sort (f : A -> bool) (l : list A) :
  List.filter f (sort cmp l) = sort cmp (List.filter f l).
Proof.
  induction l as [|x l IH]; simpl; [reflexivity|].
  destruct (f x) eqn:Fx.
  - rewrite filter_insertSorted_in by (auto using sort_sorted).
    simpl. now rewrite IH.
  - now rewrite filter_insertSorted_out.
Qed.

(** A list already in strictly ascending key order is what sorting any of
    its permutations yields. *)
Lemma keySorted_unique (l l' : list A) :
  keySorted l -> StronglySorted (fun a b => key a < key b) l' ->
  Permutation l l' -> l = l'.
Proof.
  intros Hl Hl'. revert l Hl.
  induction Hl' as [|y l' Hs IH Hy]; intros l Hl Hp.
  - now apply Permutation_sym, Permutation_nil in Hp.
  - destruct l as [|x l]; [now apply Permutation_nil in Hp|].
    inversion Hl as [|? ? Hsl Hx]; subst.
    assert (x = y) as ->.
    { assert (Hin : In x (y :: l')) by (eapply Permutation_in; [exact Hp|now left]).
      destruct Hin as [->|Hin]; [reflexivity|].
      assert (Hin' : In y (x :: l))
        by (eapply Permutation_in; [symmetry; exact Hp|now left]).
      rewrite List.Forall_forall in Hy. specialize (Hy x Hin).
      destruct Hin' as [->|Hin']; [reflexivity|].
      rewrite List.Forall_forall in Hx. specialize (Hx y Hin'). lia. }
    f_equal. apply IH; [exact Hsl|]. eapply Permutation_cons_inv; exact Hp.
Qed.

Lemma sort_of_perm (l l' : list A) :
  StronglySorted (fun a b => key a < key b) l' ->
  Permutation l l' -> sort cmp l = l'.
Proof.
  intros Hs Hp. apply keySorted_unique; [apply sort_sorted|exact Hs|].
  now rewrite sort_perm.
Qed.

End SortFacts.

Lemma byTimeAsc_key (a b : Event.t) :
  byTimeAsc a b <= 0 <-> Event.timestamp a <= Event.timestamp b.
Proof. unfold byTimeAsc. lia. Qed.

Lemma byTimeDesc_key (a b : CSE.t) :
  byTimeDesc a b <= 0 <-> - CSE.timestamp a <= - CSE.timestamp b.
Proof. unfold byTimeDesc. lia. Qed.

Lemma alertsByTimeDesc_key (a b : Alert.t) :
  alertsByTimeDesc a b <= 0 <-> - Alert.timestamp a <= - Alert.timestamp b.
Proof. unfold alertsByTimeDesc. lia. Qed.

(** ** The loop of the SessionTracker *)

Lemma forEachBody_skipped st e :
  skipped e = true -> forEachBody st e = (st, None).
Proof.
  unfold skipped, unknownPlate, forEachBody. intros H.
  destruct (String.eqb (plateNumberOf e) "UNKNOWN"); [reflexivity|].
  simpl in H. now rewrite H.
Qed.

Lemma forEachBody_allow st e :
  skipped e = false -> isAllowEvent e = true ->
  forEachBody st e =
    (<[plateNumberOf e :=
         snd (trackAllow (st !! plateNumberOf e) (Event.timestamp e) (Event.description e))]> st,
     Some (mkClassified e
       (fst (trackAllow (st !! plateNumberOf e) (Event.timestamp e) (Event.description e))))).
Proof.
  unfold skipped, unknownPlate, forEachBody. intros H Ha.
  apply orb_false_elim in H as [H1 H2]. rewrite H1, H2, Ha.
  now destruct trackAllow.
Qed.

Lemma forEachBody_other st e :
  skipped e = false -> isAllowEvent e = false ->
  forEachBody st e =
    (st, Some (mkClassified e (inferDirection (Event.event_type e) (Event.description e)))).
Proof.
  unfold skipped, unknownPlate, forEachBody. intros H Ha.
  apply orb_false_elim in H as [H1 H2]. now rewrite H1, H2, Ha.
Qed.

Lemma forEach_acc l st res :
  fold_left forEachStep l (st, res) =
    (fst (fold_left forEachStep l (st, [])),
     res ++ snd (fold_left forEachStep l (st, []))).
Proof.
  revert st res. induction l as [|e l IH]; intros st res; simpl.
  - now rewrite app_nil_r.
  - unfold forEachStep at 2 4 6. simpl.
    destruct (forEachBody st e) as [st1 o].
    rewrite IH. rewrite (IH st1 (pushOpt [] o)). simpl.
    destruct o; simpl; [|reflexivity].
    now rewrite <- app_assoc.
Qed.

Lemma forEach_cons e l st :
  snd (fold_left forEachStep (e :: l) (st, [])) =
    pushOpt [] (snd (forEachBody st e))
    ++ snd (fold_left forEachStep l (fst (forEachBody st e), [])).
Proof.
  simpl. unfold forEachStep at 2. simpl.
  destruct (forEachBody st e) as [st1 o]. now rewrite forEach_acc.
Qed.

(** The classified ALLOW records of one plate depend on the tracked records
    of that plate only. *)
Lemma plate_projection p l st :
  List.filter (allowedFor p) (snd (fold_left forEachStep l (st, []))) =
  plateSession (st !! p) (List.filter (trackedFor p) l).
Proof.
  revert st. induction l as [|e l IH]; intros st; [reflexivity|].
  rewrite forEach_cons, List.filter_app. simpl List.filter at 3.
  unfold trackedFor at 1.
  destruct (skipped e) eqn:Hs.
  { rewrite forEachBody_skipped by exact Hs. simpl. apply IH. }
  destruct (isAllowEvent e) eqn:Ha.
  - rewrite forEachBody_allow by assumption. simpl.
    unfold allowedFor at 1. simpl. fold (isAllowEvent e). rewrite Ha.
    destruct (String.eqb_spec (plateNumberOf e) p) as [->|Hne]; simpl.
    + rewrite IH, lookup_insert_eq. now destruct trackAllow.
    + rewrite IH, lookup_insert_ne by exact Hne. reflexivity.
  - rewrite forEachBody_other by assumption. simpl.
    unfold allowedFor at 1. simpl. fold (isAllowEvent e). rewrite Ha.
    rewrite andb_false_r. simpl. apply IH.
Qed.

(** ** C1: three authorised sightings of one plate *)

Lemma three_sightings r1 r2 r3 t0 :
  Event.timestamp r1 = t0 ->
  Event.timestamp r2 = t0 + 10 * 60 * 1000 ->
  Event.timestamp r3 = t0 + 3 * 60 * 60 * 1000 ->
  plateSession None [r1; r2; r3] =
    [mkClassified r1 Entry; mkClassified r2 Exit; mkClassified r3 Entry].
Proof.
  intros H1 H2 H3. unfold plateSession, trackAllow.
  rewrite H1, H2, H3.
  unfold strategies at 1. simpl.
  unfold strategies at 1. simpl.
  rewrite (proj2 (Z.ltb_ge _ _)) by (unfold HOURS_2; lia). simpl.
  unfold strategies at 1. simpl.
  rewrite (proj2 (Z.ltb_lt _ _)) by (unfold HOURS_2; lia).
  reflexivity.
Qed.

(** C1. Whatever else the input holds, if the records of plate [p] that
    reach the ALLOW branch are three, at [t0], [t0 + 10 min] and
    [t0 + 3 h], then the classified ALLOW records of [p] are exactly those
    three, newest first, with directions Entry (strategy 2: the gap to
    [lastSeen] exceeds two hours), Exit (strategy 3) and Entry
    (strategy 1); the descriptions play no part. *)
Theorem C1_entry_exit_entry (events : list Event.t) (p : string) (r1 r2 r3 : Event.t) (t0 : Z) :
  Permutation (List.filter (trackedFor p) events) [r1; r2; r3] ->
  Event.timestamp r1 = t0 ->
  Event.timestamp r2 = t0 + 10 * 60 * 1000 ->
  Event.timestamp r3 = t0 + 3 * 60 * 60 * 1000 ->
  List.filter (allowedFor p) (transformToConstructionSiteEvents events) =
    [mkClassified r3 Entry; mkClassified r2 Exit; mkClassified r1 Entry].
Proof.
  intros Hp H1 H2 H3.
  unfold transformToConstructionSiteEvents, trackSessions.
  rewrite (filter_sort byTimeDesc _ byTimeDesc_key).
  rewrite plate_projection.
  rewrite (filter_sort byTimeAsc _ byTimeAsc_key).
  rewrite (sort_of_perm byTimeAsc _ byTimeAsc_key _ [r1; r2; r3]).
  - rewrite lookup_empty, (three_sightings r1 r2 r3 t0) by assumption.
    apply (sort_of_perm byTimeDesc _ byTimeDesc_key).
    + repeat constructor; simpl; lia.
    + exact (Permutation_rev [_; _; _]).
  - repeat constructor; lia.
  - exact Hp.
Qed.

(** Instance of C1 on [sampleDay], whose records of plate MH12AB1234 arrive
    out of order and next to an ALERT and a skipped record. *)
Lemma C1_entry_exit_entry_witness :
  map (fun c => (CSE.id c, CSE.direction c))
    (List.filter (allowedFor "MH12AB1234") (transformToConstructionSiteEvents sampleDay))
  = [(3, Entry); (2, Exit); (1, Entry)].
Proof.
  rewrite (C1_entry_exit_entry sampleDay "MH12AB1234"
             (sampleEvent 1 "ALLOW" (Some "Delivery truck") (9 * hour) "MH12AB1234")
             (sampleEvent 2 "ALLOW" None (9 * hour + 10 * minute) "MH12AB1234")
             (sampleEvent 3 "ALLOW" None (9 * hour + 3 * hour) "MH12AB1234")
             (9 * hour)).
  - reflexivity.
  - exact (Permutation_cons_append [_; _] _).
  - reflexivity.
  - reflexivity.
  - reflexivity.
Defined.

(** ** Substring search *)

Lemma startsWith_spec (sub s : string) :
  Str.startsWith s sub = true <-> exists post, s = sub +:+ post.
Proof.
  revert s. induction sub as [|a sub IH]; intros s; simpl.
  - split; [intros _; now exists s|reflexivity].
  - destruct s as [|b s]; simpl.
    + split; [discriminate|intros [post H]; discriminate].
    + rewrite andb_true_iff, IH. split.
      * intros [Hab [post ->]]. apply Ascii.eqb_eq in Hab as ->. now exists post.
      * intros [post H]. injection H as -> ->. split; [apply Ascii.eqb_refl|now exists post].
Qed.

Lemma includes_spec (s sub : string) :
  Str.includes s sub = true <-> occursIn sub s.
Proof.
  unfold occursIn. induction s as [|c s IH].
  - simpl. rewrite orb_false_r, startsWith_spec. split.
    + intros [post ->]. now exists "", post.
    + intros [pre [post H]]. destruct pre; [now exists post|discriminate].
  - change (Str.includes (String c s) sub)
      with (Str.startsWith (String c s) sub || Str.includes s sub).
    rewrite orb_true_iff, startsWith_spec, IH. split.
    + intros [[post ->]|[pre [post ->]]].
      * now exists "", post.
      * now exists (String c pre), post.
    + intros [pre [post H]]. destruct pre as [|c' pre].
      * left. now exists post.
      * right. simpl in H. injection H as -> ->. now exists pre, post.
Qed.

Lemma anyOccurs_three (a b c s : string) :
  anyOccurs [a; b; c] s <->
  Str.includes s a || Str.includes s b || Str.includes s c = true.
Proof.
  unfold anyOccurs. rewrite !orb_true_iff, !includes_spec. split.
  - intros H. inversion H as [? ? H1|? ? H1]; subst; [tauto|].
    inversion H1 as [? ? H2|? ? H2]; subst; [tauto|].
    inversion H2 as [? ? H3|? ? H3]; subst; [tauto|inversion H3].
  - intros [[H|H]|H].
    + now apply Exists_cons_hd.
    + now apply Exists_cons_tl, Exists_cons_hd.
    + now apply Exists_cons_tl, Exists_cons_tl, Exists_cons_hd.
Qed.

(** ** C4: vehicle category *)

(** C4, as the design document words it, fails: a description with a
    Machinery keyword and a MaterialTruck keyword is a Material Truck. *)
Lemma C4_counterexample :
  determineVehicleCategory "MH12AB1234" (Some "excavator delivery") = MaterialTruck /\
  Spec.vehicleCategory (Some "excavator delivery") = Machinery /\
  determineVehicleCategory "MH12AB1234" (Some "excavator delivery")
    <> Spec.vehicleCategory (Some "excavator delivery").
Proof. split; [reflexivity|split; [reflexivity|vm_compute; discriminate]]. Qed.

(** C4 (amended). The category is read off the lower-cased description
    (so the scan ignores letter case) with the MaterialTruck keywords
    first: truck/material/delivery give MaterialTruck; otherwise
    machinery/excavator/crane give Machinery; otherwise
    staff/employee/personnel give Staff; otherwise MaterialTruck. *)
Theorem C4_category_priority (plate : string) (description : option string) (desc : string) :
  desc = Str.toLowerCase (Str.orElse description "") ->
  (anyOccurs truckWords desc ->
     determineVehicleCategory plate description = MaterialTruck) /\
  (~ anyOccurs truckWords desc -> anyOccurs machineryWords desc ->
     determineVehicleCategory plate description = Machinery) /\
  (~ anyOccurs truckWords desc -> ~ anyOccurs machineryWords desc ->
   anyOccurs staffWords desc ->
     determineVehicleCategory plate description = Staff) /\
  (~ anyOccurs truckWords desc -> ~ anyOccurs machineryWords desc ->
   ~ anyOccurs staffWords desc ->
     determineVehicleCategory plate description = MaterialTruck).
Proof.
  intros ->. unfold truckWords, machineryWords, staffWords, determineVehicleCategory.
  rewrite !anyOccurs_three.
  set (d := Str.toLowerCase (Str.orElse description "")).
  destruct (Str.includes d "truck" || Str.includes d "material" || Str.includes d "delivery");
  destruct (Str.includes d "machinery" || Str.includes d "excavator" || Str.includes d "crane");
  destruct (Str.includes d "staff" || Str.includes d "employee" || Str.includes d "personnel");
  repeat split; intros; congruence.
Qed.

Lemma C4_category_priority_witness :
  determineVehicleCategory "MH12AB1234" (Some "Excavator DELIVERY") = MaterialTruck /\
  determineVehicleCategory "MH12AB1234" (Some "Tower Crane for staff") = Machinery.
Proof.
  split.
  - destruct (C4_category_priority "MH12AB1234" (Some "Excavator DELIVERY")
                "excavator delivery" eq_refl) as (H & _).
    apply H, anyOccurs_three. reflexivity.
  - destruct (C4_category_priority "MH12AB1234" (Some "Tower Crane for staff")
                "tower crane for staff" eq_refl) as (_ & H & _).
    apply H.
    + intros H'. apply anyOccurs_three in H'. discriminate H'.
    + apply anyOccurs_three. reflexivity.
Defined.

(** ** Records that are skipped, and records that are not *)

Lemma skipped_spec (e : Event.t) :
  skipped e = true <->
  plateNumberOf e = "UNKNOWN" \/
  Event.rule_name e = Some "invalid_plate_format" \/
  gateNameOf e = "Gate invalid_plate_format".
Proof.
  unfold skipped, unknownPlate, invalidPlateFormat, Str.eqLit.
  rewrite !orb_true_iff, !String.eqb_eq.
  destruct (Event.rule_name e) as [r|].
  - rewrite String.eqb_eq. split; [intros [?|[?|?]]|intros [?|[?|?]]]; subst; auto.
    inversion H. auto.
  - split; [intros [?|[?|?]]|intros [?|[?|?]]]; auto; discriminate.
Qed.

Lemma forEachStep_skipped acc e : skipped e = true -> forEachStep acc e = acc.
Proof.
  intros H. unfold forEachStep. rewrite forEachBody_skipped by exact H.
  now destruct acc.
Qed.

Lemma fold_skipped l acc :
  fold_left forEachStep (List.filter (fun e => negb (skipped e)) l) acc =
  fold_left forEachStep l acc.
Proof.
  revert acc. induction l as [|e l IH]; intros acc; simpl; [reflexivity|].
  destruct (skipped e) eqn:Hs; simpl.
  - now rewrite forEachStep_skipped.
  - apply IH.
Qed.

(** Skipped records leave no trace in the session map nor in [result]. *)
Lemma trackSessions_skipped (events : list Event.t) :
  trackSessions events = trackSessions (List.filter (fun e => negb (skipped e)) events).
Proof.
  unfold trackSessions.
  rewrite <- (filter_sort byTimeAsc _ byTimeAsc_key).
  now rewrite fold_skipped.
Qed.

Lemma run_origin l st c :
  In c (snd (fold_left forEachStep l (st, []))) ->
  exists e d, In e l /\ skipped e = false /\ c = mkClassified e d.
Proof.
  revert st. induction l as [|e l IH]; intros st; [intros []|].
  rewrite forEach_cons, in_app_iff. intros [H|H].
  - destruct (skipped e) eqn:Hs.
    { rewrite forEachBody_skipped in H by exact Hs. destruct H. }
    destruct (isAllowEvent e) eqn:Ha.
    + rewrite forEachBody_allow in H by assumption.
      destruct H as [<-|[]]. eexists e, _. repeat split; [now left|exact Hs].
    + rewrite forEachBody_other in H by assumption.
      destruct H as [<-|[]]. eexists e, _. repeat split; [now left|exact Hs].
  - destruct (IH _ H) as (e' & d & Hin & Hs & ->).
    exists e', d. repeat split; [now right|exact Hs].
Qed.

Lemma run_keeps_other l st e :
  In e l -> skipped e = false -> isAllowEvent e = false ->
  In (mkClassified e (inferDirection (Event.event_type e) (Event.description e)))
     (snd (fold_left forEachStep l (st, []))).
Proof.
  intros Hin Hs Ha. revert st. induction l as [|a l IH]; intros st; [destruct Hin|].
  rewrite forEach_cons, in_app_iff. destruct Hin as [->|Hin].
  - left. rewrite forEachBody_other by assumption. now left.
  - right. now apply IH.
Qed.

Lemma transform_In events c :
  In c (transformToConstructionSiteEvents events) <->
  In c (snd (fold_left forEachStep (sort byTimeAsc events) (∅, []))).
Proof.
  unfold transformToConstructionSiteEvents, trackSessions.
  split; apply Permutation_in; [|symmetry]; apply sort_perm.
Qed.

(** ** C2: direction of ALERT and LOG_ONLY records *)

(** C2, as worded, fails on a LOG_ONLY record whose description holds an
    exit keyword: the loop classifies it Entry. *)
Lemma C2_counterexample :
  skipped logOnlyExit = false /\
  Event.event_type logOnlyExit = "LOG_ONLY" /\
  exitWords (Event.description logOnlyExit) = true /\
  map CSE.direction (transformToConstructionSiteEvents [logOnlyExit]) = [Entry] /\
  Spec.nonAllowDirection (Event.event_type logOnlyExit) (Event.description logOnlyExit) = Exit.
Proof. repeat (split; [reflexivity|]). reflexivity. Qed.

(** C2 (amended). A record that is not skipped and whose decision is not
    ALLOW is classified without touching the session map, and appears in
    the output with this direction: for decision ALERT, Exit if the
    description holds an exit keyword, else Entry if it holds an entry
    keyword, else Exit; for any other decision (LOG_ONLY), Entry whatever
    the description says. *)
Theorem C2_non_allow_direction (st : gmap string SessionState) (e : Event.t) :
  skipped e = false -> isAllowEvent e = false ->
  exists d,
    forEachBody st e = (st, Some (mkClassified e d)) /\
    (forall events, In e events ->
       In (mkClassified e d) (transformToConstructionSiteEvents events)) /\
    (Event.event_type e = "ALERT" ->
       d = if exitWords (Event.description e) then Exit
           else if entryWords (Event.description e) then Entry
           else Exit) /\
    (Event.event_type e <> "ALERT" -> d = Entry).
Proof.
  intros Hs Ha.
  exists (inferDirection (Event.event_type e) (Event.description e)).
  split; [now apply forEachBody_other|]. split; [|split].
  - intros events Hin. apply transform_In. apply run_keeps_other; [|assumption..].
    eapply Permutation_in; [symmetry; apply sort_perm|exact Hin].
  - intros ->. reflexivity.
  - intros Hne. unfold inferDirection.
    now destruct (String.eqb_spec (Event.event_type e) "ALERT").
Qed.

Lemma C2_non_allow_direction_witness :
  exists d,
    forEachBody ∅ logOnlyExit = (∅, Some (mkClassified logOnlyExit d)) /\
    In (mkClassified logOnlyExit d) (transformToConstructionSiteEvents [alertLeaving; logOnlyExit]) /\
    d = Entry.
Proof.
  destruct (C2_non_allow_direction ∅ logOnlyExit eq_refl eq_refl) as (d & H1 & H2 & _ & H3).
  exists d. split; [exact H1|]. split.
  - apply H2. right. now left.
  - apply H3. discriminate.
Defined.

(** ** C9: what one record does to the session map *)

Lemma trackAllow_lastSeen entry t d : lastSeen (snd (trackAllow entry t d)) = t.
Proof. unfold trackAllow. now destruct strategies. Qed.

(** C9. A record whose decision is not ALLOW leaves the session map as it
    was. An ALLOW record that reaches the tracker stores, under its own
    plate, a state whose [lastSeen] is the record's timestamp, whichever
    strategy chose the direction, and leaves every other plate's state as
    it was. *)
Theorem C9_session_frame (st : gmap string SessionState) (e : Event.t) :
  (isAllowEvent e = false -> fst (forEachBody st e) = st) /\
  (isAllowEvent e = true -> skipped e = false ->
     (exists s, fst (forEachBody st e) !! plateNumberOf e = Some s /\
                lastSeen s = Event.timestamp e) /\
     (forall q, q <> plateNumberOf e -> fst (forEachBody st e) !! q = st !! q)).
Proof.
  split.
  - intros Ha. destruct (skipped e) eqn:Hs.
    + now rewrite forEachBody_skipped.
    + now rewrite forEachBody_other.
  - intros Ha Hs. rewrite forEachBody_allow by assumption. simpl. split.
    + eexists. rewrite lookup_insert_eq. split; [reflexivity|].
      apply trackAllow_lastSeen.
    + intros q Hq. now rewrite lookup_insert_ne.
Qed.

Lemma C9_session_frame_witness :
  fst (forEachBody ∅ alertLeaving) = ∅ /\
  exists s,
    fst (forEachBody ∅ (sampleEvent 1 "ALLOW" None (9 * hour) "MH12AB1234")) !! "MH12AB1234"
      = Some s /\
    lastSeen s = 9 * hour.
Proof.
  split.
  - apply (C9_session_frame ∅ alertLeaving). reflexivity.
  - apply (C9_session_frame ∅ (sampleEvent 1 "ALLOW" None (9 * hour) "MH12AB1234"));
      reflexivity.
Defined.

(** ** Grouping into an insertion-ordered map *)

Section Grouping.
Context {E V : Type}.
Variable keyOf : E -> string.
Variable v0 : V.
Variable push : E -> V -> V.

(** [inj l] is the value a group holds once the records [l] were pushed. *)
Variable inj : list E -> V.
Hypothesis inj_nil : inj [] = v0.
Hypothesis inj_snoc : forall l e, inj (l ++ [e]) = push e (inj l).

Let keyIs (k : string) (e : E) : bool := String.eqb (keyOf e) k.
Let step (m : list (string * V)) (e : E) := omUpsert (keyOf e) v0 (push e) m.
Let table (g : string -> V) (keys : list string) := map (fun q => (q, g q)) keys.

Lemma omHas_table g keys k : omHas k (table g keys) = true <-> In k keys.
Proof.
  induction keys as [|q keys IH]; simpl; [split; [discriminate|tauto]|].
  rewrite orb_true_iff, String.eqb_eq, IH. tauto.
Qed.

Lemma omAlter_table f g keys k :
  NoDup keys ->
  omAlter f k (table g keys) =
  table (fun q => if String.eqb q k then f (g q) else g q) keys.
Proof.
  induction 1 as [|q keys Hq Hnd IH]; simpl; [reflexivity|].
  destruct (String.eqb_spec q k) as [->|Hne].
  - f_equal. apply map_ext_in. intros a Ha.
    destruct (String.eqb_spec a k) as [->|_]; [|reflexivity].
    exfalso. apply Hq. now apply list_elem_of_In.
  - f_equal. exact IH.
Qed.

Lemma filter_none (k : string) (l : list E) :
  (forall e, In e l -> keyOf e <> k) -> List.filter (keyIs k) l = [].
Proof.
  induction l as [|e l IH]; intros H; simpl; [reflexivity|].
  unfold keyIs at 1. destruct (String.eqb_spec (keyOf e) k) as [Heq|_].
  - exfalso. apply (H e); [now left|exact Heq].
  - apply IH. intros e' He'. apply H. now right.
Qed.

(** The groups are the distinct keys, each with its records in input order. *)
Lemma group_fold (l : list E) :
  exists keys,
    NoDup keys /\
    (forall k, In k keys <-> exists e, In e l /\ keyOf e = k) /\
    fold_left step l [] = table (fun k => inj (List.filter (keyIs k) l)) keys.
Proof.
  induction l as [|e l IH] using rev_ind.
  - exists []. split; [constructor|]. split; [|reflexivity].
    intros k. split; [intros []|intros (e & [] & _)].
  - destruct IH as (keys & Hnd & Hkeys & Hfold).
    rewrite fold_left_app. simpl. rewrite Hfold. unfold step at 1, omUpsert, omEnsure.
    set (k := keyOf e).
    assert (Hstep : forall keys', NoDup keys' ->
      omAlter (push e) k (table (fun q => inj (List.filter (keyIs q) l)) keys') =
      table (fun q => inj (List.filter (keyIs q) (l ++ [e]))) keys').
    { intros keys' Hnd'. rewrite omAlter_table by exact Hnd'.
      apply map_ext. intros q. f_equal.
      rewrite List.filter_app. simpl.
      change (keyIs q e) with (String.eqb k q). rewrite (String.eqb_sym k q).
      destruct (String.eqb q k); [now rewrite inj_snoc|now rewrite app_nil_r]. }
    destruct (omHas k _) eqn:Hhas.
    + exists keys. split; [exact Hnd|]. split; [|now apply Hstep].
      intros q. rewrite Hkeys. split.
      * intros (a & Ha & Hq). exists a. rewrite in_app_iff. auto.
      * intros (a & Ha & Hq). apply in_app_iff in Ha as [Ha|[<-|[]]]; [now exists a|].
        apply Hkeys. apply omHas_table in Hhas. subst q. exact Hhas.
    + assert (Hk : ~ In k keys).
      { intros Hin. rewrite (proj2 (omHas_table _ keys k) Hin) in Hhas. discriminate. }
      exists (keys ++ [k]). split; [|split].
      * apply NoDup_app. repeat split; [exact Hnd| |repeat constructor; intros H; inversion H].
        intros q Hq Hq'. apply list_elem_of_In in Hq. apply list_elem_of_In in Hq'.
        destruct Hq' as [<-|[]]. contradiction.
      * intros q. rewrite !in_app_iff, Hkeys. split.
        -- intros [(a & Ha & Hq)|[<-|[]]]; [exists a|exists e]; rewrite in_app_iff; simpl; auto.
        -- intros (a & Ha & Hq). apply in_app_iff in Ha as [Ha|[<-|[]]]; eauto. subst. simpl. auto.
      * rewrite <- Hstep.
        2:{ apply NoDup_app. repeat split; [exact Hnd| |repeat constructor; intros H; inversion H].
            intros q Hq Hq'. apply list_elem_of_In in Hq. apply list_elem_of_In in Hq'.
            destruct Hq' as [<-|[]]. contradiction. }
        f_equal. unfold table. rewrite map_app. simpl. do 3 f_equal.
        rewrite filter_none; [now rewrite inj_nil|].
        intros a Ha Heq. apply Hk, Hkeys. now exists a.
Qed.

End Grouping.

(** ** List facts used by the two consumers *)

Section ListFacts.
Context {A B : Type}.

Lemma filter_and (f g : A -> bool) (l : list A) :
  List.filter f (List.filter g l) = List.filter (fun x => g x && f x) l.
Proof.
  induction l as [|x l IH]; simpl; [reflexivity|].
  destruct (g x); simpl; [|exact IH].
  destruct (f x); now rewrite IH.
Qed.

Lemma filter_ext_In (f g : A -> bool) (l : list A) :
  (forall x, In x l -> f x = g x) -> List.filter f l = List.filter g l.
Proof.
  induction l as [|x l IH]; intros H; simpl; [reflexivity|].
  rewrite (H x) by now left.
  rewrite IH by (intros; apply H; now right). reflexivity.
Qed.

Lemma filter_split (f : A -> bool) (l : list A) :
  Permutation (List.filter f l ++ List.filter (fun x => negb (f x)) l) l.
Proof.
  induction l as [|x l IH]; simpl; [reflexivity|].
  destruct (f x); simpl.
  - now constructor.
  - rewrite <- Permutation_middle. now constructor.
Qed.

Lemma existsb_filter (f g : A -> bool) (l : list A) :
  existsb f (List.filter g l) = existsb (fun x => g x && f x) l.
Proof.
  induction l as [|x l IH]; simpl; [reflexivity|].
  destruct (g x); simpl; now rewrite IH.
Qed.

Lemma filter_flat_map (f : B -> bool) (h : A -> list B) (l : list A) :
  List.filter f (flat_map h l) = flat_map (fun x => List.filter f (h x)) l.
Proof.
  induction l as [|x l IH]; simpl; [reflexivity|].
  now rewrite List.filter_app, IH.
Qed.

Lemma flat_map_ext_In (h h' : A -> list B) (l : list A) :
  (forall x, In x l -> h x = h' x) -> flat_map h l = flat_map h' l.
Proof.
  induction l as [|x l IH]; intros H; simpl; [reflexivity|].
  rewrite (H x) by now left.
  rewrite IH by (intros; apply H; now right). reflexivity.
Qed.

Lemma map_flat_map {C : Type} (g : B -> C) (h : A -> list B) (l : list A) :
  flat_map (fun x => map g (h x)) l = map g (flat_map h l).
Proof.
  induction l as [|x l IH]; simpl; [reflexivity|].
  now rewrite map_app, IH.
Qed.

Lemma flat_map_table (g : string -> A) (h : string * A -> list B) (keys : list string) :
  flat_map h (map (fun k => (k, g k)) keys) = flat_map (fun k => h (k, g k)) keys.
Proof. induction keys as [|k keys IH]; simpl; [reflexivity|]. now rewrite IH. Qed.

End ListFacts.

Section Partition.
Context {E : Type}.
Variable keyOf : E -> string.
Let keyIs (k : string) (e : E) : bool := String.eqb (keyOf e) k.

(** Distinct keys that cover a list cut it into its groups. *)
Lemma partition_by_key (keys : list string) (l : list E) :
  NoDup keys -> (forall e, In e l -> In (keyOf e) keys) ->
  Permutation (flat_map (fun k => List.filter (keyIs k) l) keys) l.
Proof.
  intros Hnd. revert l. induction Hnd as [|k keys Hk Hnd IH]; intros l Hcover.
  - destruct l as [|e l]; [reflexivity|]. destruct (Hcover e). now left.
  - simpl. etransitivity; [|apply (filter_split (keyIs k) l)].
    apply Permutation_app_head.
    rewrite <- (IH (List.filter (fun x => negb (keyIs k x)) l)).
    + apply Permutation_refl'. apply flat_map_ext_In. intros q Hq.
      rewrite filter_and. apply filter_ext_In. intros e _.
      unfold keyIs. destruct (String.eqb_spec (keyOf e) q) as [->|_].
      * destruct (String.eqb_spec q k) as [->|_]; [|reflexivity].
        exfalso. apply Hk. now apply list_elem_of_In.
      * now rewrite andb_false_r.
    + intros e He. apply filter_In in He as [He Hne].
      destruct (Hcover e He) as [Heq|Hin]; [|exact Hin].
      unfold keyIs in Hne. rewrite <- Heq, String.eqb_refl in Hne. discriminate.
Qed.

End Partition.

(** ** The AnomalyDetector, one alert type at a time *)

Lemma existsb_ext_all {A : Type} (f g : A -> bool) (l : list A) :
  (forall x, f x = g x) -> existsb f l = existsb g l.
Proof. intros H. induction l as [|x l IH]; simpl; [reflexivity|]. now rewrite H, IH. Qed.

Lemma groupByPlate_spec (events : list CSE.t) :
  exists keys,
    NoDup keys /\
    (forall k, In k keys <-> exists e, In e events /\ CSE.plateNumber e = k) /\
    groupByPlate events = map (fun k => (k, List.filter (plateIs k) events)) keys.
Proof.
  exact (group_fold CSE.plateNumber [] (fun e l => l ++ [e]) (fun l => l)
           eq_refl (fun l e => eq_refl) events).
Qed.

Lemma filter_type_map (T T' : AlertType) (msg k : string) (l : list CSE.t) :
  List.filter (typeIs T) (map (mkAlert T' msg k) l) =
  if AlertType_eqb T' T then map (mkAlert T' msg k) l else [].
Proof.
  induction l as [|e l IH]; simpl; [now destruct (AlertType_eqb T' T)|].
  rewrite IH. unfold typeIs at 1. simpl. now destruct (AlertType_eqb T' T).
Qed.

(** One family of alerts, regrouped: per-plate selection on the plate's
    group amounts to one selection on the whole sequence. *)
Lemma family_perm (events : list CSE.t) (keys : list string)
    (F : string -> CSE.t -> Alert.t) (G : list CSE.t -> CSE.t -> bool)
    (F' : CSE.t -> Alert.t) (C : CSE.t -> bool) :
  NoDup keys ->
  (forall e, In e events -> In (CSE.plateNumber e) keys) ->
  (forall e, F (CSE.plateNumber e) e = F' e) ->
  (forall e, G (List.filter (plateIs (CSE.plateNumber e)) events) e = C e) ->
  Permutation
    (flat_map (fun k => map (F k)
                 (List.filter (G (List.filter (plateIs k) events))
                    (List.filter (plateIs k) events))) keys)
    (map F' (List.filter C events)).
Proof.
  intros Hnd Hcover HF HG.
  transitivity
    (map F' (flat_map (fun k => List.filter (plateIs k) (List.filter C events)) keys)).
  - rewrite <- map_flat_map. apply Permutation_refl'. apply flat_map_ext_In.
    intros k _. rewrite !filter_and.
    rewrite (filter_ext_In (fun x => C x && plateIs k x)
               (fun x => plateIs k x && G (List.filter (plateIs k) events) x)).
    + apply map_ext_in. intros e He. apply filter_In in He as [_ He].
      apply andb_true_iff in He as [He _]. apply String.eqb_eq in He as <-. apply HF.
    + intros e _. destruct (plateIs k e) eqn:Hk; [|now rewrite andb_false_r].
      apply String.eqb_eq in Hk as <-. rewrite HG. now rewrite andb_true_r.
  - apply Permutation_map. apply (partition_by_key CSE.plateNumber); [exact Hnd|].
    intros e He. apply filter_In in He as [He _]. now apply Hcover.
Qed.

Section AlertFamilies.
Variable getHours : Z -> Z.

Lemma filter_sorted_alerts (T : AlertType) (l : list Alert.t) :
  Permutation (List.filter (typeIs T) (sort alertsByTimeDesc l)) (List.filter (typeIs T) l).
Proof.
  rewrite (filter_sort alertsByTimeDesc _ alertsByTimeDesc_key). apply sort_perm.
Qed.

Lemma unmatched_group (events : list CSE.t) (e : CSE.t) :
  alertExit e
  && negb (existsb (entryMatches e)
             (List.filter isEntry (List.filter (plateIs (CSE.plateNumber e)) events)))
  = unmatchedAlertExit events e.
Proof.
  unfold unmatchedAlertExit. f_equal. f_equal.
  rewrite !existsb_filter. apply existsb_ext_all. intros x. reflexivity.
Qed.

Lemma no_matching_entry_alerts (events : list CSE.t) :
  Permutation
    (List.filter (typeIs NoMatchingEntry) (identifyTheftAlerts getHours events))
    (map (fun e => noMatchingEntryAlert (CSE.plateNumber e) e)
       (List.filter (unmatchedAlertExit events) events)).
Proof.
  unfold identifyTheftAlerts. rewrite filter_sorted_alerts, filter_flat_map.
  destruct (groupByPlate_spec events) as (keys & Hnd & Hkeys & ->).
  rewrite flat_map_table.
  rewrite <- (family_perm events keys noMatchingEntryAlert
    (fun g e => alertExit e && negb (existsb (entryMatches e) (List.filter isEntry g)))
    (fun e => noMatchingEntryAlert (CSE.plateNumber e) e) (unmatchedAlertExit events)
    Hnd).
  - apply Permutation_refl'. apply flat_map_ext_In. intros k _.
    unfold plateAlerts. rewrite !List.filter_app.
    unfold unauthorizedExitAlert, noMatchingEntryAlert, afterHoursExitAlert.
    rewrite !filter_type_map. simpl. rewrite app_nil_r.
    now rewrite filter_and.
  - intros e He. apply Hkeys. now exists e.
  - reflexivity.
  - intros e. apply unmatched_group.
Qed.

Lemma after_hours_alerts (events : list CSE.t) :
  Permutation
    (List.filter (typeIs AfterHoursExit) (identifyTheftAlerts getHours events))
    (map (fun e => afterHoursExitAlert (CSE.plateNumber e) e)
       (List.filter (afterHoursAlertExit getHours) events)).
Proof.
  unfold identifyTheftAlerts. rewrite filter_sorted_alerts, filter_flat_map.
  destruct (groupByPlate_spec events) as (keys & Hnd & Hkeys & ->).
  rewrite flat_map_table.
  rewrite <- (family_perm events keys afterHoursExitAlert
    (fun _ e => afterHoursAlertExit getHours e)
    (fun e => afterHoursExitAlert (CSE.plateNumber e) e) (afterHoursAlertExit getHours)
    Hnd).
  - apply Permutation_refl'. apply flat_map_ext_In. intros k _.
    unfold plateAlerts. rewrite !List.filter_app.
    unfold unauthorizedExitAlert, noMatchingEntryAlert, afterHoursExitAlert.
    rewrite !filter_type_map. simpl.
    now rewrite filter_and.
  - intros e He. apply Hkeys. now exists e.
  - reflexivity.
  - reflexivity.
Qed.

End AlertFamilies.

Lemma Direction_eqb_eq (a b : Direction) : Direction_eqb a b = true <-> a = b.
Proof. destruct a, b; simpl; split; congruence. Qed.

Lemma alertExit_spec (e : CSE.t) :
  alertExit e = true <-> CSE.direction e = Exit /\ CSE.decision e = "ALERT".
Proof.
  unfold alertExit, isExit, isAlert.
  now rewrite andb_true_iff, Direction_eqb_eq, String.eqb_eq.
Qed.

Lemma samePlateEntry_spec (e en : CSE.t) :
  samePlateEntry e en = true <->
  CSE.plateNumber en = CSE.plateNumber e /\ CSE.direction en = Entry /\
  CSE.timestamp en < CSE.timestamp e /\
  CSE.timestamp e - CSE.timestamp en < 24 * 60 * 60 * 1000.
Proof.
  unfold samePlateEntry, isEntry, entryMatches, HOURS_24.
  rewrite !andb_true_iff, Direction_eqb_eq, String.eqb_eq, !Z.ltb_lt. tauto.
Qed.

(** ** C6: exits without a recorded entry *)

(** C6. The No Matching Entry alerts are, one for one, the records of the
    classified sequence with direction Exit and decision ALERT for which
    the sequence holds no Entry record of the same plate (whatever its
    decision) that is earlier by less than 24 hours; each carries the
    message "Vehicle exited without recorded entry". An Exit record with
    another decision never yields one. *)
Theorem C6_no_matching_entry (getHours : Z -> Z) (events : list CSE.t) :
  Permutation
    (List.filter (typeIs NoMatchingEntry) (identifyTheftAlerts getHours events))
    (map (fun e => Alert.mk (CSE.id e) (CSE.plateNumber e) NoMatchingEntry
                     "Vehicle exited without recorded entry"
                     (CSE.timestamp e) (CSE.description e))
       (List.filter (unmatchedAlertExit events) events)) /\
  (forall e, unmatchedAlertExit events e = true <->
     CSE.direction e = Exit /\ CSE.decision e = "ALERT" /\
     ~ exists en, In en events /\
         CSE.plateNumber en = CSE.plateNumber e /\ CSE.direction en = Entry /\
         CSE.timestamp en < CSE.timestamp e /\
         CSE.timestamp e - CSE.timestamp en < 24 * 60 * 60 * 1000).
Proof.
  split; [apply no_matching_entry_alerts|].
  intros e. unfold unmatchedAlertExit.
  rewrite andb_true_iff, alertExit_spec, negb_true_iff, <- not_true_iff_false.
  rewrite existsb_exists. split.
  - intros [[Hd Ha] Hn]. repeat split; [exact Hd|exact Ha|].
    intros (en & Hin & H). apply Hn. exists en. split; [exact Hin|].
    now apply samePlateEntry_spec.
  - intros (Hd & Ha & Hn). repeat split; [exact Hd|exact Ha|].
    intros (en & Hin & H). apply Hn. exists en. split; [exact Hin|].
    now apply samePlateEntry_spec.
Qed.

(** ** C8: exits outside working hours *)

Lemma afterHoursAlertExit_spec (getHours : Z -> Z) (e : CSE.t) :
  afterHoursAlertExit getHours e = true <->
  CSE.direction e = Exit /\ CSE.decision e = "ALERT" /\
  (getHours (CSE.timestamp e) < 6 \/ 20 <= getHours (CSE.timestamp e)).
Proof.
  unfold afterHoursAlertExit, afterHours.
  rewrite andb_true_iff, alertExit_spec, orb_true_iff, Z.ltb_lt, Z.leb_le. tauto.
Qed.

Lemma after_hours_In (getHours : Z -> Z) (events : list CSE.t) (a : Alert.t) :
  Alert.alertType a = AfterHoursExit ->
  (In a (identifyTheftAlerts getHours events) <->
   exists e, In e events /\ afterHoursAlertExit getHours e = true /\
             a = afterHoursExitAlert (CSE.plateNumber e) e).
Proof.
  intros Ht. split.
  - intros Hin.
    assert (Hf : In a (List.filter (typeIs AfterHoursExit) (identifyTheftAlerts getHours events))).
    { apply filter_In. split; [exact Hin|]. unfold typeIs. now rewrite Ht. }
    eapply Permutation_in in Hf; [|apply after_hours_alerts].
    apply in_map_iff in Hf as (e & <- & He). apply filter_In in He as [He Hc].
    now exists e.
  - intros (e & He & Hc & ->).
    assert (Hf : In (afterHoursExitAlert (CSE.plateNumber e) e)
                   (List.filter (typeIs AfterHoursExit) (identifyTheftAlerts getHours events))).
    { eapply Permutation_in; [symmetry; apply after_hours_alerts|].
      apply in_map_iff. exists e. split; [reflexivity|]. now apply filter_In. }
    now apply filter_In in Hf as [Hf _].
Qed.

(** C8. The After Hours Exit alerts are, one for one, the records with
    direction Exit and decision ALERT whose local hour is below 6 or at
    least 20; each carries the message "Material movement detected outside
    working hours". Such a record at 22:00 yields its alert; at 14:00 it
    does not. *)
Theorem C8_after_hours_exit (getHours : Z -> Z) (events : list CSE.t) :
  Permutation
    (List.filter (typeIs AfterHoursExit) (identifyTheftAlerts getHours events))
    (map (fun e => Alert.mk (CSE.id e) (CSE.plateNumber e) AfterHoursExit
                     "Material movement detected outside working hours"
                     (CSE.timestamp e) (CSE.description e))
       (List.filter (afterHoursAlertExit getHours) events)) /\
  (forall e, afterHoursAlertExit getHours e = true <->
     CSE.direction e = Exit /\ CSE.decision e = "ALERT" /\
     (getHours (CSE.timestamp e) < 6 \/ 20 <= getHours (CSE.timestamp e))) /\
  (forall e, In e events -> CSE.direction e = Exit -> CSE.decision e = "ALERT" ->
     (getHours (CSE.timestamp e) = 22 ->
        In (afterHoursExitAlert (CSE.plateNumber e) e) (identifyTheftAlerts getHours events)) /\
     (getHours (CSE.timestamp e) = 14 ->
        ~ In (afterHoursExitAlert (CSE.plateNumber e) e) (identifyTheftAlerts getHours events))).
Proof.
  split; [apply after_hours_alerts|]. split; [apply afterHoursAlertExit_spec|].
  intros e He Hd Ha. split; intros Hh.
  - apply after_hours_In; [reflexivity|]. exists e. split; [exact He|]. split; [|reflexivity].
    apply afterHoursAlertExit_spec. repeat split; [exact Hd|exact Ha|lia].
  - intros Hin. apply after_hours_In in Hin as (e' & _ & Hc & Heq); [|reflexivity].
    apply afterHoursAlertExit_spec in Hc as (_ & _ & Hc).
    assert (Ht : CSE.timestamp e = CSE.timestamp e') by (now injection Heq).
    rewrite <- Ht, Hh in Hc. lia.
Qed.

Lemma C8_after_hours_exit_witness :
  In (afterHoursExitAlert "DL01AA0001" (sampleClassified 5 "ALERT" Exit (22 * hour) "DL01AA0001"))
     (identifyTheftAlerts utcHours [sampleClassified 5 "ALERT" Exit (22 * hour) "DL01AA0001"]) /\
  ~ In (afterHoursExitAlert "DL01AA0001" (sampleClassified 5 "ALERT" Exit (14 * hour) "DL01AA0001"))
     (identifyTheftAlerts utcHours [sampleClassified 5 "ALERT" Exit (14 * hour) "DL01AA0001"]).
Proof.
  split.
  - destruct (C8_after_hours_exit utcHours
                [sampleClassified 5 "ALERT" Exit (22 * hour) "DL01AA0001"]) as (_ & _ & H).
    apply (H (sampleClassified 5 "ALERT" Exit (22 * hour) "DL01AA0001"));
      [now left|reflexivity..].
  - destruct (C8_after_hours_exit utcHours
                [sampleClassified 5 "ALERT" Exit (14 * hour) "DL01AA0001"]) as (_ & _ & H).
    apply (H (sampleClassified 5 "ALERT" Exit (14 * hour) "DL01AA0001"));
      [now left|reflexivity..].
Defined.

(** ** The vendor groups *)

Lemma groupByVendor_allow (events : list CSE.t) (m : list (string * VendorData)) :
  fold_left groupByVendorStep events m =
  fold_left (fun m e => omUpsert (getVendorName (CSE.plateNumber e))
                          (mkVendorData [] []) (pushEvent e) m)
    (List.filter isAllow events) m.
Proof.
  revert m. induction events as [|e l IH]; intros m; simpl; [reflexivity|].
  unfold groupByVendorStep at 2. destruct (isAllow e); simpl; apply IH.
Qed.

Lemma groupByVendor_spec (events : list CSE.t) :
  exists keys,
    NoDup keys /\
    groupByVendor events =
      map (fun k => (k, mkVendorData (vendorEntries k events) (vendorExits k events))) keys.
Proof.
  unfold groupByVendor. rewrite groupByVendor_allow.
  destruct (group_fold (fun e => getVendorName (CSE.plateNumber e))
              (mkVendorData [] []) pushEvent
              (fun l => mkVendorData (List.filter isEntry l)
                          (List.filter (fun e => negb (isEntry e)) l))
              eq_refl) with (l := List.filter isAllow events)
    as (keys & Hnd & _ & ->).
  - intros l e. rewrite !List.filter_app. unfold pushEvent. simpl.
    destruct (isEntry e); simpl; rewrite ?app_nil_r; reflexivity.
  - exists keys. split; [exact Hnd|]. apply map_ext. intros k.
    unfold vendorEntries, vendorExits. rewrite !filter_and.
    do 2 f_equal; apply filter_ext_In; intros e _; apply andb_assoc.
Qed.

Lemma analytics_Forall (localMidnight : Z -> Z) (now : Z) (events : list CSE.t)
    (P : VA.t -> Prop) :
  (forall k, P (vendorStats localMidnight now
                  (k, mkVendorData (vendorEntries k events) (vendorExits k events)))) ->
  Forall P (calculateVendorAnalytics localMidnight now events).
Proof.
  intros H. unfold calculateVendorAnalytics.
  eapply Permutation_Forall; [symmetry; apply sort_perm|].
  destruct (groupByVendor_spec events) as (keys & _ & ->).
  rewrite List.map_map, List.Forall_map. apply List.Forall_forall. intros k _. apply H.
Qed.

(** ** C5: suspicious exits *)

(** C5. Every vendor aggregate has [suspiciousExits = 0]: the groups hold
    ALLOW records only, and the count is of their ALERT records. *)
Theorem C5_suspicious_exits_zero (localMidnight : Z -> Z) (now : Z) (events : list CSE.t) :
  Forall (fun a => VA.suspiciousExits a = 0%nat)
    (calculateVendorAnalytics localMidnight now events).
Proof.
  apply analytics_Forall. intros k. simpl.
  unfold vendorExits. rewrite filter_and.
  rewrite (filter_ext_In _ (fun _ => false)).
  - now induction events.
  - intros e _. unfold isAllow, isAlert.
    destruct (String.eqb_spec (CSE.decision e) "ALLOW") as [->|_]; [|reflexivity].
    apply andb_false_r.
Qed.

(** ** Duration matching *)

Lemma find_existsb {A : Type} (f : A -> bool) (l : list A) :
  existsb f l = match List.find f l with Some _ => true | None => false end.
Proof.
  induction l as [|x l IH]; simpl; [reflexivity|].
  destruct (f x); simpl; [reflexivity|exact IH].
Qed.

(** On a list in ascending key order, [find] returns a match of least key. *)
Lemma find_sorted {A : Type} (key : A -> Z) (f : A -> bool) (l : list A) (x : A) :
  keySorted key l -> List.find f l = Some x ->
  In x l /\ f x = true /\ forall x', In x' l -> f x' = true -> key x <= key x'.
Proof.
  unfold keySorted. induction 1 as [|y l Hs IH Hy]; simpl; [discriminate|].
  destruct (f y) eqn:Fy.
  - intros [= <-]. repeat split; [now left|exact Fy|].
    intros x' [<-|Hin] _; [lia|].
    rewrite List.Forall_forall in Hy. now apply Hy.
  - intros Hx. destruct (IH Hx) as (Hin & Fx & Hmin).
    repeat split; [now right|exact Fx|].
    intros x' [<-|Hin'] Fx'; [congruence|now apply Hmin].
Qed.

Lemma transform_sorted (raw : list Event.t) :
  keySorted (fun c => - CSE.timestamp c) (transformToConstructionSiteEvents raw).
Proof. apply (sort_sorted byTimeDesc _ byTimeDesc_key). Qed.

Lemma matchedPairs_fst (exits entries : list CSE.t) :
  map fst (matchedPairs exits entries) = List.filter (hasMatch exits) entries.
Proof.
  unfold matchedPairs, hasMatch. induction entries as [|en l IH]; simpl; [reflexivity|].
  rewrite map_app, IH, find_existsb.
  now destruct (List.find (exitMatches en) exits).
Qed.

Lemma matchedPairs_minutes (exits entries : list CSE.t) :
  flat_map (durationOf exits) entries = map pairMinutes (matchedPairs exits entries).
Proof.
  unfold matchedPairs. induction entries as [|en l IH]; simpl; [reflexivity|].
  rewrite map_app, IH. unfold durationOf at 1.
  now destruct (List.find (exitMatches en) exits).
Qed.

Lemma matchedPairs_latest (exits entries : list CSE.t) :
  keySorted (fun c => - CSE.timestamp c) exits ->
  Forall (fun p => latestMatch exits (fst p) (snd p)) (matchedPairs exits entries).
Proof.
  intros Hs. unfold matchedPairs. induction entries as [|en l IH]; simpl; [constructor|].
  apply Forall_app. split; [|exact IH].
  destruct (List.find (exitMatches en) exits) as [x|] eqn:Hf; [|constructor].
  constructor; [|constructor].
  destruct (find_sorted _ _ _ _ Hs Hf) as (Hin & Hm & Hmax).
  repeat split; [exact Hin|exact Hm|].
  intros x' Hin' Hm'. specialize (Hmax x' Hin' Hm'). simpl in *. lia.
Qed.

Lemma fold_left_Qplus (l : list Q) (a : Q) : (fold_left Qplus l a == a + Qsum l)%Q.
Proof.
  revert a. induction l as [|x l IH]; intros a; simpl.
  - ring.
  - rewrite IH. ring.
Qed.

Lemma average_spec (ds : list Q) :
  (ds = [] -> average ds = None) /\
  (ds <> [] -> exists q, average ds = Some q /\
                 (q == Qsum ds / inject_Z (Z.of_nat (length ds)))%Q).
Proof.
  split; [now intros ->|]. intros Hne. destruct ds as [|d ds]; [contradiction|].
  unfold average. simpl Nat.ltb. cbv iota. eexists. split; [reflexivity|].
  now rewrite fold_left_Qplus, Qplus_0_l.
Qed.

(** ** C3: which exit an entry is matched with *)

(** C3, evaluated on [sampleVisits]: the truck stays ten minutes twice.
    The vendor group holds the exits newest first, [find] returns the 09:50
    exit for both entries, and the average is 30 minutes; matching each
    entry with the earliest exit that follows it gives 10 minutes. *)
Lemma C3_two_visits :
  let classified := transformToConstructionSiteEvents sampleVisits in
  let exits := vendorExits "Maharashtra" classified in
  let entries := vendorEntries "Maharashtra" classified in
  map CSE.timestamp entries = [9 * hour + 40 * minute; 9 * hour] /\
  map CSE.timestamp exits = [9 * hour + 50 * minute; 9 * hour + 10 * minute] /\
  map (fun p => (CSE.timestamp (fst p), CSE.timestamp (snd p))) (matchedPairs exits entries)
    = [(9 * hour + 40 * minute, 9 * hour + 50 * minute); (9 * hour, 9 * hour + 50 * minute)] /\
  (exists q,
     map (fun a => (VA.vendorName a, VA.averageDuration a))
       (calculateVendorAnalytics utcMidnight (10 * hour) classified)
       = [("Maharashtra", Some q)] /\ (q == 30)%Q) /\
  (exists q, SpecDuration.averageDuration entries exits = Some q /\ (q == 10)%Q).
Proof.
  repeat (split; [reflexivity|]).
  split; eexists; (split; [reflexivity|]); reflexivity.
Qed.

(** What the code does for C3, in general. On the classified sequence the tracker returns (newest
    first), every vendor aggregate is computed from the ALLOW records of
    that vendor: each Entry record that has some Exit record of the group
    later than it by less than 24 hours is matched with the LATEST such
    Exit record (the first one in the group's newest-first order);
    [averageDuration] is the arithmetic mean, in minutes, of the matched
    durations, and undefined when no Entry has a match. *)
Lemma latest_exit_matched (localMidnight : Z -> Z) (now : Z) (raw : list Event.t) :
  Forall (fun a =>
    let exits := vendorExits (VA.vendorName a) (transformToConstructionSiteEvents raw) in
    let entries := vendorEntries (VA.vendorName a) (transformToConstructionSiteEvents raw) in
    exists pairs : list (CSE.t * CSE.t),
      map fst pairs = List.filter (hasMatch exits) entries /\
      Forall (fun p => latestMatch exits (fst p) (snd p)) pairs /\
      (pairs = [] -> VA.averageDuration a = None) /\
      (pairs <> [] ->
         exists q, VA.averageDuration a = Some q /\
           (q == Qsum (map pairMinutes pairs) / inject_Z (Z.of_nat (length pairs)))%Q))
    (calculateVendorAnalytics localMidnight now (transformToConstructionSiteEvents raw)).
Proof.
  apply analytics_Forall. intros k. simpl.
  set (classified := transformToConstructionSiteEvents raw).
  exists (matchedPairs (vendorExits k classified) (vendorEntries k classified)).
  split; [apply matchedPairs_fst|]. split.
  - apply matchedPairs_latest. apply keySorted_filter. apply transform_sorted.
  - rewrite matchedPairs_minutes.
    destruct (average_spec (map pairMinutes
                (matchedPairs (vendorExits k classified) (vendorEntries k classified))))
      as [Hnil Hcons].
    split.
    + intros Hp. apply Hnil. now rewrite Hp.
    + intros Hp. rewrite <- (length_map pairMinutes). apply Hcons.
      intros Hm. apply Hp. now apply map_eq_nil in Hm.
Qed.

(** ** C7 and C10: records dropped at normalisation *)

Lemma transform_skipped (events : list Event.t) :
  transformToConstructionSiteEvents events =
  transformToConstructionSiteEvents (List.filter (fun e => negb (skipped e)) events).
Proof.
  unfold transformToConstructionSiteEvents. now rewrite <- trackSessions_skipped.
Qed.

Lemma classified_not_skipped (e : Event.t) (d : Direction) :
  skipped e = false ->
  CSE.plateNumber (mkClassified e d) <> "UNKNOWN" /\
  CSE.ruleName (mkClassified e d) <> Some "invalid_plate_format" /\
  CSE.gateName (mkClassified e d) <> "Gate invalid_plate_format".
Proof.
  intros Hs. simpl.
  repeat split; intros H; apply not_true_iff_false in Hs; apply Hs, skipped_spec; auto.
Qed.

(** C7. A record whose plate is the sentinel "UNKNOWN", whose rule name is
    "invalid_plate_format" or whose gate label is
    "Gate invalid_plate_format" is skipped, and skipped records are in none
    of the outputs: the classified records, the theft alerts and the
    vendor aggregates are those of the input without them, the session map
    too, and no classified record carries the sentinel plate, the
    invalid-format rule name or the invalid-format gate label. *)
Theorem C7_dropped_records (getHours localMidnight : Z -> Z) (now : Z)
    (events : list Event.t) :
  let kept := List.filter (fun e => negb (skipped e)) events in
  (forall e, skipped e = true <->
     plateNumberOf e = "UNKNOWN" \/
     Event.rule_name e = Some "invalid_plate_format" \/
     gateNameOf e = "Gate invalid_plate_format") /\
  trackSessions events = trackSessions kept /\
  transformToConstructionSiteEvents events = transformToConstructionSiteEvents kept /\
  identifyTheftAlerts getHours (transformToConstructionSiteEvents events) =
    identifyTheftAlerts getHours (transformToConstructionSiteEvents kept) /\
  calculateVendorAnalytics localMidnight now (transformToConstructionSiteEvents events) =
    calculateVendorAnalytics localMidnight now (transformToConstructionSiteEvents kept) /\
  Forall (fun c => exists e d, In e kept /\ c = mkClassified e d /\
                     CSE.plateNumber c <> "UNKNOWN" /\
                     CSE.ruleName c <> Some "invalid_plate_format" /\
                     CSE.gateName c <> "Gate invalid_plate_format")
    (transformToConstructionSiteEvents events).
Proof.
  intros kept. subst kept. split; [exact skipped_spec|].
  split; [apply trackSessions_skipped|].
  split; [apply transform_skipped|].
  split; [now rewrite <- transform_skipped|].
  split; [now rewrite <- transform_skipped|].
  apply List.Forall_forall. intros c Hc.
  apply transform_In, run_origin in Hc as (e & d & Hin & Hs & ->).
  exists e, d. split.
  - apply filter_In. split; [|now rewrite Hs].
    eapply Permutation_in; [apply sort_perm|exact Hin].
  - split; [reflexivity|]. now apply classified_not_skipped.
Qed.

Lemma missing_plate_skipped (e : Event.t) :
  Event.plate_text e = None \/ Event.plate_text e = Some "" ->
  plateNumberOf e = "UNKNOWN" /\ skipped e = true.
Proof.
  unfold skipped, unknownPlate, plateNumberOf. now intros [-> | ->].
Qed.

(** C10. A record whose [plate_text] is absent (or null) or the empty
    string takes the sentinel plate "UNKNOWN" and is skipped: the loop
    body returns at once, with the session map as it was and nothing
    pushed; wherever the record stands in the input, the session map, the
    classified records, the theft alerts and the vendor aggregates are
    those of the input without it. *)
Theorem C10_missing_plate (getHours localMidnight : Z -> Z) (now : Z)
    (st : gmap string SessionState) (e : Event.t) (before after : list Event.t) :
  Event.plate_text e = None \/ Event.plate_text e = Some "" ->
  plateNumberOf e = "UNKNOWN" /\
  forEachBody st e = (st, None) /\
  trackSessions (before ++ e :: after) = trackSessions (before ++ after) /\
  transformToConstructionSiteEvents (before ++ e :: after) =
    transformToConstructionSiteEvents (before ++ after) /\
  identifyTheftAlerts getHours (transformToConstructionSiteEvents (before ++ e :: after)) =
    identifyTheftAlerts getHours (transformToConstructionSiteEvents (before ++ after)) /\
  calculateVendorAnalytics localMidnight now
      (transformToConstructionSiteEvents (before ++ e :: after)) =
    calculateVendorAnalytics localMidnight now
      (transformToConstructionSiteEvents (before ++ after)).
Proof.
  intros H. destruct (missing_plate_skipped e H) as [Hp Hs].
  assert (Ht : trackSessions (before ++ e :: after) = trackSessions (before ++ after)).
  { rewrite trackSessions_skipped, (trackSessions_skipped (before ++ after)).
    rewrite !List.filter_app. simpl. now rewrite Hs. }
  assert (Hc : transformToConstructionSiteEvents (before ++ e :: after) =
               transformToConstructionSiteEvents (before ++ after)).
  { unfold transformToConstructionSiteEvents. now rewrite Ht. }
  split; [exact Hp|]. split; [now apply forEachBody_skipped|].
  split; [exact Ht|]. split; [exact Hc|]. now rewrite Hc.
Qed.

Lemma C10_missing_plate_witness :
  forEachBody ∅ (Event.mk 21 "ALLOW" (Some "Delivery truck") None (9 * hour) None) = (∅, None) /\
  transformToConstructionSiteEvents
    (sampleVisits ++ Event.mk 22 "ALERT" None None (9 * hour) (Some "") :: sampleDay) =
  transformToConstructionSiteEvents (sampleVisits ++ sampleDay).
Proof.
  split.
  - apply (C10_missing_plate utcHours utcMidnight 0 ∅
             (Event.mk 21 "ALLOW" (Some "Delivery truck") None (9 * hour) None) [] []).
    now left.
  - apply (C10_missing_plate utcHours utcMidnight 0 ∅
             (Event.mk 22 "ALERT" None None (9 * hour) (Some "")) sampleVisits sampleDay).
    now right.
Defined.

(** ** The model run on the examples of the design document *)

Example gate_examples :
  determineGateName (Some "North Gate") None = "North Gate" /\
  determineGateName (Some "blacklist") None = "Gate blacklist" /\
  determineGateName None (Some "seen at GATE  7b, lane 2") = "Gate 7b" /\
  determineGateName None (Some "gate !") = "Main Gate" /\
  determineGateName (Some "invalid_plate_format") None = "Gate invalid_plate_format".
Proof. repeat (split; [reflexivity|]). reflexivity. Qed.

(** An ALERT record that says "leaving", with no earlier Entry of its
    plate, yields an Unauthorized Exit and a No Matching Entry alert. *)
Example alert_leaving_alerts :
  map Alert.alertType
    (identifyTheftAlerts utcHours (transformToConstructionSiteEvents [alertLeaving]))
  = [UnauthorizedExit; NoMatchingEntry].
Proof. reflexivity. Qed.

(** Two entries today and one exit 40 minutes after the first: two
    deliveries, 40 minutes on average. *)
Example vendor_day :
  exists q,
    map (fun a => (VA.vendorName a, VA.deliveriesToday a, VA.averageDuration a,
                   VA.suspiciousExits a))
      (calculateVendorAnalytics utcMidnight (12 * hour)
         (transformToConstructionSiteEvents sampleVendorDay))
    = [("Karnataka", 2%nat, Some q, 0%nat)] /\ (q == 40)%Q.
Proof. eexists. split; reflexivity. Qed.

(** * Further properties of the code *)

(** ** The output of the SessionTracker as a whole *)

Lemma keySorted_neg {A : Type} (time : A -> Z) (l : list A) :
  keySorted (fun a => - time a) l -> newestFirst time l.
Proof.
  unfold keySorted, newestFirst. induction 1 as [|x l Hs IH Hx]; constructor; [exact IH|].
  eapply Forall_impl; [exact Hx|]. simpl. intros; lia.
Qed.

(** X1. The classified records are returned newest first. *)
Theorem transform_newest_first (events : list Event.t) :
  newestFirst CSE.timestamp (transformToConstructionSiteEvents events).
Proof. apply keySorted_neg, transform_sorted. Qed.

Lemma run_fields l st :
  map (withDirection Entry) (snd (fold_left forEachStep l (st, []))) =
  map (fun e => mkClassified e Entry) (List.filter (fun e => negb (skipped e)) l).
Proof.
  revert st. induction l as [|e l IH]; intros st; [reflexivity|].
  rewrite forEach_cons, map_app, IH. simpl List.filter.
  destruct (skipped e) eqn:Hs; simpl.
  - now rewrite forEachBody_skipped.
  - destruct (isAllowEvent e) eqn:Ha.
    + now rewrite forEachBody_allow.
    + now rewrite forEachBody_other.
Qed.

Lemma filter_perm {A : Type} (f : A -> bool) (l l' : list A) :
  Permutation l l' -> Permutation (List.filter f l) (List.filter f l').
Proof.
  induction 1 as [|x l l' _ IH|x y l|l l' l'' _ IH1 _ IH2]; simpl.
  - reflexivity.
  - destruct (f x); [now constructor|exact IH].
  - destruct (f x), (f y); try reflexivity. apply perm_swap.
  - now transitivity (List.filter f l').
Qed.

(** X2. Up to the direction, the classified records are the records that
    are not skipped, one for one, each with its identifier, plate,
    category, gate label, timestamp, decision, description and rule name
    taken from its raw record. *)
Theorem transform_one_per_kept (events : list Event.t) :
  Permutation
    (map (withDirection Entry) (transformToConstructionSiteEvents events))
    (map (fun e => mkClassified e Entry) (List.filter (fun e => negb (skipped e)) events)) /\
  length (transformToConstructionSiteEvents events) =
    length (List.filter (fun e => negb (skipped e)) events).
Proof.
  assert (H : Permutation
    (map (withDirection Entry) (transformToConstructionSiteEvents events))
    (map (fun e => mkClassified e Entry) (List.filter (fun e => negb (skipped e)) events))).
  { unfold transformToConstructionSiteEvents, trackSessions.
    rewrite (sort_perm byTimeDesc), run_fields.
    apply Permutation_map, filter_perm, sort_perm. }
  split; [exact H|].
  apply Permutation_length in H. now rewrite !length_map in H.
Qed.

(** ** Arrival order *)

Section SortInvariance.
Context {A : Type}.
Variable cmp : A -> A -> Z.
Variable key : A -> Z.
Hypothesis cmp_key : forall a b, cmp a b <= 0 <-> key a <= key b.

Lemma keySorted_strict (l : list A) :
  keySorted key l -> NoDup (map key l) ->
  StronglySorted (fun a b => key a < key b) l.
Proof.
  unfold keySorted. induction 1 as [|x l Hs IH Hx]; simpl; [constructor|].
  intros Hnd. apply NoDup_cons in Hnd as [Hx' Hnd].
  constructor; [now apply IH|].
  apply List.Forall_forall. intros y Hy.
  rewrite List.Forall_forall in Hx. specialize (Hx y Hy).
  assert (key x <> key y); [|lia].
  intros Heq. apply Hx'. rewrite Heq. apply list_elem_of_In. now apply in_map.
Qed.

Lemma sort_perm_eq (l l' : list A) :
  NoDup (map key l) -> Permutation l l' -> sort cmp l = sort cmp l'.
Proof.
  intros Hnd Hp. apply (sort_of_perm cmp key cmp_key).
  - apply keySorted_strict; [apply (sort_sorted cmp key cmp_key)|].
    rewrite sort_perm, <- Hp. exact Hnd.
  - rewrite sort_perm. exact Hp.
Qed.

End SortInvariance.

(** X3. When no two records share a timestamp, the session map and the
    classified records do not depend on the order in which the records
    arrive. *)
Theorem transform_arrival_order (events events' : list Event.t) :
  NoDup (map Event.timestamp events) -> Permutation events events' ->
  trackSessions events = trackSessions events' /\
  transformToConstructionSiteEvents events = transformToConstructionSiteEvents events'.
Proof.
  intros Hnd Hp.
  assert (H : trackSessions events = trackSessions events').
  { unfold trackSessions.
    now rewrite (sort_perm_eq byTimeAsc Event.timestamp byTimeAsc_key events events'). }
  split; [exact H|]. unfold transformToConstructionSiteEvents. now rewrite H.
Qed.

Lemma transform_arrival_order_witness :
  transformToConstructionSiteEvents sampleVisits =
  transformToConstructionSiteEvents (rev sampleVisits).
Proof.
  apply (transform_arrival_order sampleVisits (rev sampleVisits)).
  - apply (bool_decide_unpack (NoDup _)). vm_compute. exact I.
  - apply Permutation_rev.
Defined.

(** ** The session of one plate over a whole run *)

Lemma forEach_cons_fst e l st :
  fst (fold_left forEachStep (e :: l) (st, [])) =
  fst (fold_left forEachStep l (fst (forEachBody st e), [])).
Proof.
  simpl. unfold forEachStep at 2. simpl.
  destruct (forEachBody st e) as [st1 o]. now rewrite forEach_acc.
Qed.

(** The state stored for a plate depends on the tracked records of that
    plate only. *)
Lemma store_projection p l st :
  fst (fold_left forEachStep l (st, [])) !! p =
  plateState (st !! p) (List.filter (trackedFor p) l).
Proof.
  revert st. induction l as [|e l IH]; intros st; [reflexivity|].
  rewrite forEach_cons_fst, IH. simpl List.filter. unfold trackedFor at 2.
  destruct (skipped e) eqn:Hs.
  { now rewrite forEachBody_skipped. }
  destruct (isAllowEvent e) eqn:Ha.
  - rewrite forEachBody_allow by assumption. simpl.
    destruct (String.eqb_spec (plateNumberOf e) p) as [->|Hne]; simpl.
    + now rewrite lookup_insert_eq.
    + now rewrite lookup_insert_ne.
  - rewrite forEachBody_other by assumption. simpl. now rewrite andb_false_r.
Qed.

Lemma plate_classified (events : list Event.t) (p : string) :
  List.filter (allowedFor p) (transformToConstructionSiteEvents events) =
  sort byTimeDesc
    (plateSession None (sort byTimeAsc (List.filter (trackedFor p) events))).
Proof.
  unfold transformToConstructionSiteEvents, trackSessions.
  rewrite (filter_sort byTimeDesc _ byTimeDesc_key), plate_projection.
  now rewrite (filter_sort byTimeAsc _ byTimeAsc_key), lookup_empty.
Qed.

Lemma plate_stored (events : list Event.t) (p : string) :
  fst (trackSessions events) !! p =
  plateState None (sort byTimeAsc (List.filter (trackedFor p) events)).
Proof.
  unfold trackSessions. rewrite store_projection.
  now rewrite (filter_sort byTimeAsc _ byTimeAsc_key), lookup_empty.
Qed.

Lemma strategies_counts s t d :
  let r := strategies s t d in
  (entryCount (snd r) = entryCount s + (if Direction_eqb (fst r) Entry then 1 else 0) /\
   exitCount (snd r) = exitCount s + (if Direction_eqb (fst r) Exit then 1 else 0))%nat.
Proof.
  unfold strategies. cbv zeta.
  destruct ((entryCount s =? 0) && (exitCount s =? 0))%nat; [simpl; lia|].
  destruct (HOURS_2 <? t - lastSeen s); [simpl; lia|].
  destruct (exitCount s <? entryCount s)%nat; [simpl; lia|].
  destruct (exitWords d); [simpl; lia|].
  destruct (entryWords d); [simpl; lia|].
  destruct (t - firstSeen s <? MINUTES_30); simpl; lia.
Qed.

Lemma trackAllow_counts o t d :
  let r := trackAllow o t d in
  (entryCount (snd r) = entriesOf o + (if Direction_eqb (fst r) Entry then 1 else 0) /\
   exitCount (snd r) = exitsOf o + (if Direction_eqb (fst r) Exit then 1 else 0))%nat.
Proof.
  unfold trackAllow.
  set (s0 := match o with Some s => s | None => mkState t t 0 0 end).
  assert (He : entriesOf o = entryCount s0) by (now destruct o).
  assert (Hx : exitsOf o = exitCount s0) by (now destruct o).
  rewrite He, Hx. pose proof (strategies_counts s0 t d) as H.
  destruct (strategies s0 t d) as [dir s]. exact H.
Qed.

Lemma plate_counts evs o :
  (entriesOf (plateState o evs) = entriesOf o + countDirection Entry (plateSession o evs) /\
   exitsOf (plateState o evs) = exitsOf o + countDirection Exit (plateSession o evs))%nat.
Proof.
  revert o. induction evs as [|e evs IH]; intros o.
  - unfold countDirection. simpl. lia.
  - unfold plateState. simpl fold_left. fold (plateState
      (Some (snd (trackAllow o (Event.timestamp e) (Event.description e)))) evs).
    simpl plateSession.
    pose proof (trackAllow_counts o (Event.timestamp e) (Event.description e)) as Hc.
    destruct (trackAllow o (Event.timestamp e) (Event.description e)) as [dir s].
    simpl in Hc. destruct (IH (Some s)) as [IH1 IH2]. simpl in IH1, IH2. simpl snd.
    unfold countDirection in *. simpl List.filter.
    destruct dir; simpl in *; lia.
Qed.

Lemma plateState_snoc o evs e :
  plateState o (evs ++ [e]) =
  Some (snd (trackAllow (plateState o evs) (Event.timestamp e) (Event.description e))).
Proof. unfold plateState. now rewrite fold_left_app. Qed.

Lemma plateSession_times o evs :
  map CSE.timestamp (plateSession o evs) = map Event.timestamp evs.
Proof.
  revert o. induction evs as [|e evs IH]; intros o; [reflexivity|].
  simpl. destruct trackAllow as [dir s]. simpl. now rewrite IH.
Qed.

Lemma keySorted_last {A : Type} (key : A -> Z) (l : list A) (x : A) :
  keySorted key (l ++ [x]) -> Forall (fun y => key y <= key x) (l ++ [x]).
Proof.
  unfold keySorted. induction l as [|y l IH]; simpl; intros H.
  - constructor; [lia|constructor].
  - inversion H as [|? ? Hs Hy]; subst. constructor; [|now apply IH].
    rewrite List.Forall_forall in Hy. apply Hy. apply in_or_app. right. now left.
Qed.

Lemma plateSession_first e evs :
  plateSession None (e :: evs) =
  mkClassified e Entry
  :: plateSession (Some (mkState (Event.timestamp e) (Event.timestamp e) 1 0)) evs.
Proof. reflexivity. Qed.

(** X4. Once the run is over, the state kept for a plate counts the
    plate's authorised records as they were classified: [entryCount] is
    the number of its ALLOW records classified Entry, [exitCount] the
    number classified Exit, [lastSeen] is the newest of their timestamps;
    a plate with no such record has no state, and a plate with a state has
    at least one Entry. *)
Theorem session_counts_classified (events : list Event.t) (p : string) :
  let classified := List.filter (allowedFor p) (transformToConstructionSiteEvents events) in
  match fst (trackSessions events) !! p with
  | None => classified = []
  | Some s =>
      entryCount s = countDirection Entry classified /\
      exitCount s = countDirection Exit classified /\
      (1 <= entryCount s)%nat /\
      Forall (fun c => CSE.timestamp c <= lastSeen s) classified /\
      Exists (fun c => CSE.timestamp c = lastSeen s) classified
  end.
Proof.
  intros classified. subst classified. rewrite plate_classified, plate_stored.
  set (evs := sort byTimeAsc (List.filter (trackedFor p) events)).
  assert (Hsorted : keySorted Event.timestamp evs)
    by apply (sort_sorted byTimeAsc _ byTimeAsc_key).
  assert (Hcount : forall d l, countDirection d (sort byTimeDesc l) = countDirection d l).
  { intros d l. unfold countDirection.
    rewrite (filter_sort byTimeDesc _ byTimeDesc_key).
    apply Permutation_length, sort_perm. }
  destruct (plate_counts evs None) as [He Hx]. simpl in He, Hx.
  destruct evs as [|e0 evs0] eqn:Hevs; [reflexivity|].
  assert (Hone : (1 <= countDirection Entry (plateSession None (e0 :: evs0)))%nat).
  { rewrite plateSession_first. unfold countDirection. simpl. lia. }
  destruct (exists_last (l := e0 :: evs0)) as (front & e & Hlast); [discriminate|].
  rewrite Hlast in *. rewrite plateState_snoc in *. simpl in He, Hx.
  rewrite !Hcount. split; [exact He|]. split; [exact Hx|].
  rewrite trackAllow_lastSeen.
  assert (Htimes : Forall (fun c => CSE.timestamp c <= Event.timestamp e)
                     (plateSession None (front ++ [e]))).
  { apply keySorted_last in Hsorted.
    apply List.Forall_forall. intros c Hc.
    apply (in_map CSE.timestamp) in Hc. rewrite plateSession_times in Hc.
    apply in_map_iff in Hc as (e' & <- & He').
    rewrite List.Forall_forall in Hsorted. now apply Hsorted. }
  split; [|split].
  - rewrite He. exact Hone.
  - eapply Permutation_Forall; [symmetry; apply sort_perm|exact Htimes].
  - apply List.Exists_exists.
    assert (Hin : In (Event.timestamp e)
                    (map CSE.timestamp (plateSession None (front ++ [e])))).
    { rewrite plateSession_times. apply in_map. apply in_or_app. right. now left. }
    apply in_map_iff in Hin as (c & Hc & Hin). exists c. split; [|exact Hc].
    eapply Permutation_in; [symmetry; apply sort_perm|exact Hin].
Qed.

(** X5. Of the authorised records of a plate, the first to be processed
    is classified Entry (strategy 1), so an Entry record carries the
    plate's earliest timestamp. *)
Theorem earliest_sighting_is_entry (events : list Event.t) (p : string) :
  let classified := List.filter (allowedFor p) (transformToConstructionSiteEvents events) in
  classified = [] \/
  exists c, In c classified /\ CSE.direction c = Entry /\
            Forall (fun c' => CSE.timestamp c <= CSE.timestamp c') classified.
Proof.
  intros classified. subst classified. rewrite plate_classified.
  pose proof (sort_sorted byTimeAsc _ byTimeAsc_key (List.filter (trackedFor p) events))
    as Hsorted.
  destruct (sort byTimeAsc (List.filter (trackedFor p) events)) as [|e evs]; [now left|].
  right. exists (mkClassified e Entry). split; [|split; [reflexivity|]].
  - eapply Permutation_in; [symmetry; apply sort_perm|].
    rewrite plateSession_first. now left.
  - eapply Permutation_Forall; [symmetry; apply sort_perm|].
    apply List.Forall_forall. intros c Hc.
    apply (in_map CSE.timestamp) in Hc. rewrite plateSession_times in Hc.
    apply in_map_iff in Hc as (e' & <- & He'). simpl.
    inversion Hsorted as [|? ? _ Hle]; subst.
    destruct He' as [<-|He']; [lia|].
    rewrite List.Forall_forall in Hle. now apply Hle.
Qed.

Lemma strategies_exit s t d :
  fst (strategies s t d) = Exit ->
  t - lastSeen s <= HOURS_2 /\
  ((exitCount s < entryCount s)%nat \/ exitWords d = true).
Proof.
  unfold strategies.
  destruct ((entryCount s =? 0) && (exitCount s =? 0))%nat; [discriminate|].
  destruct (Z.ltb_spec HOURS_2 (t - lastSeen s)); [discriminate|].
  destruct (Nat.ltb_spec (exitCount s) (entryCount s)); [intros _; split; [lia|now left]|].
  destruct (exitWords d); [intros _; split; [lia|now right]|].
  destruct (entryWords d); [discriminate|].
  destruct (t - firstSeen s <? MINUTES_30); discriminate.
Qed.

Lemma trackAllow_exit o t d :
  fst (trackAllow o t d) = Exit ->
  exists s, o = Some s /\ t - lastSeen s <= HOURS_2 /\
            ((exitCount s < entryCount s)%nat \/ exitWords d = true).
Proof.
  unfold trackAllow. destruct o as [s|].
  - pose proof (strategies_exit s t d) as H.
    destruct (strategies s t d) as [dir s']. simpl. intros ->. exists s. split; [reflexivity|].
    now apply H.
  - simpl. discriminate.
Qed.

Lemma plateSession_exit evs :
  forall o i c,
    plateSession o evs !! i = Some c -> CSE.direction c = Exit ->
    match i with
    | O => exists s, o = Some s /\ CSE.timestamp c - lastSeen s <= HOURS_2
    | S j => exists e', evs !! j = Some e' /\
                        CSE.timestamp c - Event.timestamp e' <= HOURS_2
    end.
Proof.
  induction evs as [|e evs IH]; intros o i c Hi Hd; [destruct i; discriminate|].
  simpl in Hi.
  pose proof (trackAllow_exit o (Event.timestamp e) (Event.description e)) as Hex.
  pose proof (trackAllow_lastSeen o (Event.timestamp e) (Event.description e)) as Hls.
  destruct (trackAllow o (Event.timestamp e) (Event.description e)) as [dir s].
  simpl in Hex, Hls. destruct i as [|i]; simpl in Hi.
  - injection Hi as <-. simpl in Hd. destruct (Hex Hd) as (s0 & -> & Hgap & _).
    exists s0. split; [reflexivity|exact Hgap].
  - specialize (IH (Some s) i c Hi Hd). destruct i as [|j].
    + destruct IH as (s' & [= <-] & Hgap). exists e. split; [reflexivity|]. now rewrite <- Hls.
    + destruct IH as (e' & He' & Hgap). now exists e'.
Qed.

(** X6. Taking the authorised records of a plate in the order the tracker
    processes them (ascending time), the first is never classified Exit,
    and one classified Exit comes at most two hours after the record
    processed just before it. *)
Theorem authorised_exit_follows_recent_sighting (events : list Event.t) (p : string) :
  let tracked := sort byTimeAsc (List.filter (trackedFor p) events) in
  List.filter (allowedFor p) (transformToConstructionSiteEvents events) =
    sort byTimeDesc (plateSession None tracked) /\
  forall i c,
    plateSession None tracked !! i = Some c -> CSE.direction c = Exit ->
    exists j prev, i = S j /\ tracked !! j = Some prev /\
      Event.timestamp prev <= CSE.timestamp c <= Event.timestamp prev + 2 * 60 * 60 * 1000.
Proof.
  intros tracked. split; [apply plate_classified|].
  intros i c Hi Hd.
  pose proof (plateSession_exit tracked None i c Hi Hd) as H.
  destruct i as [|j]; [destruct H as (s & [=] & _)|].
  destruct H as (prev & Hprev & Hgap). exists j, prev.
  split; [reflexivity|]. split; [exact Hprev|]. split; [|unfold HOURS_2 in Hgap; lia].
  assert (Hts : map Event.timestamp tracked !! S j = Some (CSE.timestamp c)).
  { rewrite <- (plateSession_times None tracked), list_lookup_fmap, Hi. reflexivity. }
  rewrite list_lookup_fmap in Hts.
  destruct (tracked !! S j) as [e|] eqn:He; [|discriminate]. injection Hts as <-.
  pose proof (sort_sorted byTimeAsc _ byTimeAsc_key (List.filter (trackedFor p) events))
    as Hsorted. fold tracked in Hsorted.
  clear -Hprev He Hsorted. revert j Hprev He. unfold keySorted in Hsorted.
  induction Hsorted as [|x l Hs IH Hx]; intros j Hprev He; [discriminate|].
  destruct j as [|j]; simpl in *.
  - injection Hprev as <-. rewrite List.Forall_forall in Hx. apply Hx.
    apply list_elem_of_In. eapply list_elem_of_lookup_2. exact He.
  - now apply (IH j).
Qed.

(** ** The output of the AnomalyDetector as a whole *)

Lemma unauthorized_exit_alerts (getHours : Z -> Z) (events : list CSE.t) :
  Permutation
    (List.filter (typeIs UnauthorizedExit) (identifyTheftAlerts getHours events))
    (map (fun e => unauthorizedExitAlert (CSE.plateNumber e) e)
       (List.filter alertExit events)).
Proof.
  unfold identifyTheftAlerts. rewrite filter_sorted_alerts, filter_flat_map.
  destruct (groupByPlate_spec events) as (keys & Hnd & Hkeys & ->).
  rewrite flat_map_table.
  rewrite <- (family_perm events keys unauthorizedExitAlert
    (fun _ e => alertExit e)
    (fun e => unauthorizedExitAlert (CSE.plateNumber e) e) alertExit Hnd).
  - apply Permutation_refl'. apply flat_map_ext_In. intros k _.
    unfold plateAlerts. rewrite !List.filter_app.
    unfold unauthorizedExitAlert, noMatchingEntryAlert, afterHoursExitAlert.
    rewrite !filter_type_map. simpl. now rewrite app_nil_r.
  - intros e He. apply Hkeys. now exists e.
  - reflexivity.
  - reflexivity.
Qed.

Lemma type_partition (l : list Alert.t) :
  Permutation l
    (List.filter (typeIs UnauthorizedExit) l
     ++ List.filter (typeIs NoMatchingEntry) l
     ++ List.filter (typeIs AfterHoursExit) l).
Proof.
  induction l as [|a l IH]; [reflexivity|].
  assert (Hcons : forall T, List.filter (typeIs T) (a :: l) =
            if AlertType_eqb (Alert.alertType a) T
            then a :: List.filter (typeIs T) l else List.filter (typeIs T) l)
    by reflexivity.
  rewrite !Hcons. destruct (Alert.alertType a); simpl.
  - apply perm_skip, IH.
  - etransitivity; [apply perm_skip, IH|]. apply Permutation_middle.
  - etransitivity; [apply perm_skip, IH|]. rewrite !app_assoc. apply Permutation_middle.
Qed.

Lemma alerts_families (getHours : Z -> Z) (events : list CSE.t) :
  Permutation (identifyTheftAlerts getHours events)
    (map (fun e => unauthorizedExitAlert (CSE.plateNumber e) e)
       (List.filter alertExit events)
     ++ map (fun e => noMatchingEntryAlert (CSE.plateNumber e) e)
       (List.filter (unmatchedAlertExit events) events)
     ++ map (fun e => afterHoursExitAlert (CSE.plateNumber e) e)
       (List.filter (afterHoursAlertExit getHours) events)).
Proof.
  rewrite (type_partition (identifyTheftAlerts getHours events)).
  rewrite unauthorized_exit_alerts, no_matching_entry_alerts, after_hours_alerts.
  reflexivity.
Qed.

(** X7. The alerts are, all in all: one Unauthorized Exit alert per record
    with direction Exit and decision ALERT, one No Matching Entry alert
    per such record without a recent Entry of its plate, one After Hours
    Exit alert per such record outside 06:00-20:00; nothing else. *)
Theorem alerts_characterised (getHours : Z -> Z) (events : list CSE.t) :
  Permutation (identifyTheftAlerts getHours events)
    (map (fun e => Alert.mk (CSE.id e) (CSE.plateNumber e) UnauthorizedExit
                     "Unauthorized material movement detected"
                     (CSE.timestamp e) (CSE.description e))
       (List.filter alertExit events)
     ++ map (fun e => Alert.mk (CSE.id e) (CSE.plateNumber e) NoMatchingEntry
                     "Vehicle exited without recorded entry"
                     (CSE.timestamp e) (CSE.description e))
       (List.filter (unmatchedAlertExit events) events)
     ++ map (fun e => Alert.mk (CSE.id e) (CSE.plateNumber e) AfterHoursExit
                     "Material movement detected outside working hours"
                     (CSE.timestamp e) (CSE.description e))
       (List.filter (afterHoursAlertExit getHours) events)).
Proof.
  exact (alerts_families getHours events).
Qed.

(** X8. The alerts are returned newest first. *)
Theorem alerts_newest_first (getHours : Z -> Z) (events : list CSE.t) :
  newestFirst Alert.timestamp (identifyTheftAlerts getHours events).
Proof.
  apply keySorted_neg. apply (sort_sorted alertsByTimeDesc _ alertsByTimeDesc_key).
Qed.

(** ** Tracker and detector composed: [getMaterialTheftAlerts] *)

Lemma run_origin_direction l st c :
  In c (snd (fold_left forEachStep l (st, []))) ->
  exists e, In e l /\ skipped e = false /\
    ((isAllowEvent e = true /\ exists d, c = mkClassified e d) \/
     (isAllowEvent e = false /\
      c = mkClassified e (inferDirection (Event.event_type e) (Event.description e)))).
Proof.
  revert st. induction l as [|e l IH]; intros st; [intros []|].
  rewrite forEach_cons, in_app_iff. intros [H|H].
  - destruct (skipped e) eqn:Hs.
    { rewrite forEachBody_skipped in H by exact Hs. destruct H. }
    destruct (isAllowEvent e) eqn:Ha.
    + rewrite forEachBody_allow in H by assumption. destruct H as [<-|[]].
      exists e. split; [now left|]. split; [exact Hs|]. left. split; [exact Ha|]. eauto.
    + rewrite forEachBody_other in H by assumption. destruct H as [<-|[]].
      exists e. split; [now left|]. split; [exact Hs|]. right. now split.
  - destruct (IH _ H) as (e' & Hin & Hrest). exists e'. split; [now right|exact Hrest].
Qed.

Lemma alert_event_classified (events : list Event.t) (c : CSE.t) :
  In c (transformToConstructionSiteEvents events) -> CSE.decision c = "ALERT" ->
  exists e, In e events /\ skipped e = false /\ Event.event_type e = "ALERT" /\
            c = mkClassified e (inferDirection "ALERT" (Event.description e)).
Proof.
  intros Hc Hd. apply transform_In, run_origin_direction in Hc as (e & Hin & Hs & H).
  exists e. split; [eapply Permutation_in; [apply sort_perm|exact Hin]|].
  split; [exact Hs|].
  destruct H as [[Ha (d & ->)]|[Ha ->]]; simpl in Hd.
  - unfold isAllowEvent in Ha. rewrite Hd in Ha. discriminate.
  - split; [exact Hd|]. now rewrite Hd.
Qed.

(** X9. In [getMaterialTheftAlerts], the Unauthorized Exit alerts are
    those of the raw records that are not skipped, have decision ALERT and
    a description with an exit keyword or without entry keyword; an ALERT
    record whose description only speaks of an entry raises none. *)
Theorem pipeline_unauthorized_exit (getHours : Z -> Z) (events : list Event.t) (a : Alert.t) :
  In a (identifyTheftAlerts getHours (transformToConstructionSiteEvents events)) /\
  Alert.alertType a = UnauthorizedExit
  <->
  exists e, In e events /\ skipped e = false /\ Event.event_type e = "ALERT" /\
    (exitWords (Event.description e) = true \/ entryWords (Event.description e) = false) /\
    a = Alert.mk (Event.id e) (plateNumberOf e) UnauthorizedExit
          "Unauthorized material movement detected"
          (Event.timestamp e) (Event.description e).
Proof.
  split.
  - intros [Hin Ht].
    assert (Hf : In a (List.filter (typeIs UnauthorizedExit)
                 (identifyTheftAlerts getHours (transformToConstructionSiteEvents events)))).
    { apply filter_In. split; [exact Hin|]. unfold typeIs. now rewrite Ht. }
    eapply Permutation_in in Hf; [|apply unauthorized_exit_alerts].
    apply in_map_iff in Hf as (c & <- & Hc). apply filter_In in Hc as [Hc Hae].
    apply alertExit_spec in Hae as [Hdir Hdec].
    destruct (alert_event_classified events c Hc Hdec) as (e & He & Hs & Hty & ->).
    exists e. repeat split; try assumption.
    simpl in Hdir. unfold inferDirection in Hdir. simpl in Hdir.
    destruct (exitWords (Event.description e)); [now left|].
    destruct (entryWords (Event.description e)); [discriminate|now right].
  - intros (e & He & Hs & Hty & Hkw & ->). split; [|reflexivity].
    assert (Hd : inferDirection (Event.event_type e) (Event.description e) = Exit).
    { rewrite Hty. unfold inferDirection. simpl.
      destruct Hkw as [-> | Hkw]; [reflexivity|].
      destruct (exitWords (Event.description e)); [reflexivity|now rewrite Hkw]. }
    assert (Ha : isAllowEvent e = false) by (unfold isAllowEvent; now rewrite Hty).
    assert (Hc : In (mkClassified e Exit) (transformToConstructionSiteEvents events)).
    { rewrite <- Hd. apply transform_In, run_keeps_other; [|assumption..].
      eapply Permutation_in; [symmetry; apply sort_perm|exact He]. }
    assert (Hf : In (unauthorizedExitAlert (plateNumberOf e) (mkClassified e Exit))
                 (List.filter (typeIs UnauthorizedExit)
                    (identifyTheftAlerts getHours (transformToConstructionSiteEvents events)))).
    { eapply Permutation_in; [symmetry; apply unauthorized_exit_alerts|].
      apply in_map_iff. exists (mkClassified e Exit). split; [reflexivity|].
      apply filter_In. split; [exact Hc|]. apply alertExit_spec. now split. }
    now apply filter_In in Hf as [Hf _].
Qed.

(** X10. Without a record of decision ALERT in the input,
    [getMaterialTheftAlerts] is empty. *)
Theorem pipeline_no_alert_decision (getHours : Z -> Z) (events : list Event.t) :
  Forall (fun e => Event.event_type e <> "ALERT") events ->
  identifyTheftAlerts getHours (transformToConstructionSiteEvents events) = [].
Proof.
  intros Hno.
  assert (Hnone : forall f, List.filter (fun c => alertExit c && f c)
                     (transformToConstructionSiteEvents events) = []).
  { intros f. rewrite (filter_ext_In _ (fun _ => false)).
    - now induction (transformToConstructionSiteEvents events).
    - intros c Hc. destruct (alertExit c) eqn:Hae; [|reflexivity].
      apply alertExit_spec in Hae as [_ Hdec].
      destruct (alert_event_classified events c Hc Hdec) as (e & He & _ & Hty & _).
      rewrite List.Forall_forall in Hno. now destruct (Hno e He). }
  apply Permutation_nil. symmetry. rewrite alerts_families.
  set (classified := transformToConstructionSiteEvents events) in *.
  rewrite (filter_ext_In alertExit (fun c => alertExit c && true))
    by (intros; now rewrite andb_true_r).
  change (List.filter (unmatchedAlertExit classified) classified)
    with (List.filter (fun c => alertExit c && negb (existsb (samePlateEntry c) classified))
            classified).
  change (List.filter (afterHoursAlertExit getHours) classified)
    with (List.filter (fun c => alertExit c && afterHours getHours c) classified).
  rewrite (Hnone (fun _ => true)), (Hnone (afterHours getHours)),
    (Hnone (fun c => negb (existsb (samePlateEntry c) classified))).
  reflexivity.
Qed.

Lemma pipeline_no_alert_decision_witness :
  identifyTheftAlerts utcHours (transformToConstructionSiteEvents sampleVisits) = [].
Proof.
  apply pipeline_no_alert_decision. repeat constructor; discriminate.
Defined.

(** ** The output of the AnalyticsAggregator as a whole *)

Lemma groupByVendor_keys (events : list CSE.t) :
  exists keys,
    NoDup keys /\
    (forall k, In k keys <->
       exists e, In e events /\ isAllow e = true /\ getVendorName (CSE.plateNumber e) = k) /\
    groupByVendor events =
      map (fun k => (k, mkVendorData (vendorEntries k events) (vendorExits k events))) keys.
Proof.
  unfold groupByVendor. rewrite groupByVendor_allow.
  destruct (group_fold (fun e => getVendorName (CSE.plateNumber e))
              (mkVendorData [] []) pushEvent
              (fun l => mkVendorData (List.filter isEntry l)
                          (List.filter (fun e => negb (isEntry e)) l))
              eq_refl) with (l := List.filter isAllow events)
    as (keys & Hnd & Hkeys & ->).
  - intros l e. rewrite !List.filter_app. unfold pushEvent. simpl.
    destruct (isEntry e); simpl; rewrite ?app_nil_r; reflexivity.
  - exists keys. split; [exact Hnd|]. split.
    + intros k. rewrite Hkeys. split.
      * intros (e & He & Hk). apply filter_In in He as [He Ha]. now exists e.
      * intros (e & He & Ha & Hk). exists e. split; [|exact Hk]. now apply filter_In.
    + apply map_ext. intros k.
      unfold vendorEntries, vendorExits. rewrite !filter_and.
      do 2 f_equal; apply filter_ext_In; intros e _; apply andb_assoc.
Qed.

Lemma analytics_perm (localMidnight : Z -> Z) (now : Z) (events : list CSE.t) :
  exists keys,
    NoDup keys /\
    (forall k, In k keys <->
       exists e, In e events /\ isAllow e = true /\ getVendorName (CSE.plateNumber e) = k) /\
    Permutation (calculateVendorAnalytics localMidnight now events)
      (map (fun k => vendorStats localMidnight now
                       (k, mkVendorData (vendorEntries k events) (vendorExits k events)))
         keys).
Proof.
  destruct (groupByVendor_keys events) as (keys & Hnd & Hkeys & Hg).
  exists keys. split; [exact Hnd|]. split; [exact Hkeys|].
  unfold calculateVendorAnalytics. rewrite sort_perm, Hg, List.map_map. reflexivity.
Qed.

(** X11. There is one aggregate per vendor: the vendor names of the
    output are pairwise distinct, and they are the vendors of the records
    of decision ALLOW. *)
Theorem analytics_one_per_vendor (localMidnight : Z -> Z) (now : Z) (events : list CSE.t) :
  NoDup (map VA.vendorName (calculateVendorAnalytics localMidnight now events)) /\
  forall v,
    In v (map VA.vendorName (calculateVendorAnalytics localMidnight now events)) <->
    exists e, In e events /\ CSE.decision e = "ALLOW" /\
              getVendorName (CSE.plateNumber e) = v.
Proof.
  destruct (analytics_perm localMidnight now events) as (keys & Hnd & Hkeys & Hp).
  assert (Hn : Permutation
            (map VA.vendorName (calculateVendorAnalytics localMidnight now events)) keys).
  { rewrite Hp, List.map_map. simpl. now rewrite List.map_id. }
  split; [now rewrite Hn|].
  intros v. split.
  - intros Hv. eapply Permutation_in in Hv; [|exact Hn].
    apply Hkeys in Hv as (e & He & Ha & Hk). exists e.
    split; [exact He|]. split; [now apply String.eqb_eq|exact Hk].
  - intros (e & He & Ha & Hk). eapply Permutation_in; [symmetry; exact Hn|].
    apply Hkeys. exists e. split; [exact He|]. split; [now apply String.eqb_eq|exact Hk].
Qed.

Lemma byDeliveriesDesc_key (a b : VA.t) :
  byDeliveriesDesc a b <= 0 <->
  - Z.of_nat (VA.deliveriesToday a) <= - Z.of_nat (VA.deliveriesToday b).
Proof. unfold byDeliveriesDesc. lia. Qed.

(** X12. The aggregates are returned by decreasing [deliveriesToday]. *)
Theorem analytics_busiest_first (localMidnight : Z -> Z) (now : Z) (events : list CSE.t) :
  StronglySorted (fun a b => (VA.deliveriesToday b <= VA.deliveriesToday a)%nat)
    (calculateVendorAnalytics localMidnight now events).
Proof.
  pose proof (sort_sorted byDeliveriesDesc _ byDeliveriesDesc_key
                (map (vendorStats localMidnight now) (groupByVendor events))) as H.
  unfold calculateVendorAnalytics. unfold keySorted in H.
  induction H as [|x l Hs IH Hx]; constructor; [exact IH|].
  eapply Forall_impl; [exact Hx|]. simpl. intros; lia.
Qed.

Lemma list_sum_perm (l l' : list nat) : Permutation l l' -> list_sum l = list_sum l'.
Proof.
  induction 1 as [|x l l' _ IH|x y l|l l' l'' _ IH1 _ IH2]; simpl; lia.
Qed.

Lemma list_sum_lengths {A B : Type} (h : A -> list B) (keys : list A) :
  list_sum (map (fun k => length (h k)) keys) = length (flat_map h keys).
Proof.
  induction keys as [|k keys IH]; simpl; [reflexivity|].
  now rewrite length_app, IH.
Qed.

(** X13. Deliveries are neither lost nor counted twice across vendors:
    the [deliveriesToday] of all aggregates add up to the number of
    records with decision ALLOW and direction Entry whose local day is
    the current one. *)
Theorem analytics_deliveries_total (localMidnight : Z -> Z) (now : Z) (events : list CSE.t) :
  list_sum (map VA.deliveriesToday (calculateVendorAnalytics localMidnight now events)) =
  length (List.filter (deliveredOn localMidnight (localMidnight now)) events).
Proof.
  destruct (analytics_perm localMidnight now events) as (keys & Hnd & Hkeys & Hp).
  rewrite (list_sum_perm _ _ (Permutation_map VA.deliveriesToday Hp)).
  rewrite List.map_map. simpl.
  rewrite (list_sum_lengths
    (fun k => List.filter (fun entry => localMidnight (CSE.timestamp entry) =? localMidnight now)
                (vendorEntries k events))).
  apply Permutation_length.
  rewrite <- (partition_by_key (fun e => getVendorName (CSE.plateNumber e)) keys
                (List.filter (deliveredOn localMidnight (localMidnight now)) events)).
  - apply Permutation_refl'. apply flat_map_ext_In. intros k _.
    unfold vendorEntries. rewrite !filter_and. apply filter_ext_In. intros e _.
    unfold deliveredOn, vendorIs.
    destruct (isAllow e), (isEntry e), (String.eqb (getVendorName (CSE.plateNumber e)) k),
      (localMidnight (CSE.timestamp e) =? localMidnight now); reflexivity.
  - exact Hnd.
  - intros e He. apply filter_In in He as [He Hd]. apply Hkeys. exists e.
    split; [exact He|]. split; [|reflexivity].
    unfold deliveredOn in Hd. now destruct (isAllow e).
Qed.

Lemma head_sort_desc (l : list CSE.t) :
  match head (sort byTimeDesc l) with
  | None => l = []
  | Some x => In x l /\ Forall (fun e => CSE.timestamp e <= CSE.timestamp x) l
  end.
Proof.
  pose proof (sort_perm byTimeDesc l) as Hp.
  pose proof (sort_sorted byTimeDesc _ byTimeDesc_key l) as Hs.
  destruct (sort byTimeDesc l) as [|x r]; simpl.
  - now apply Permutation_nil.
  - split; [eapply Permutation_in; [exact Hp|now left]|].
    eapply Permutation_Forall; [exact Hp|].
    inversion Hs as [|? ? _ Hx]; subst. constructor; [lia|].
    eapply Forall_impl; [exact Hx|]. simpl. intros; lia.
Qed.

(** X14. [lastDeliveryTime] is the newest timestamp among the vendor's
    ALLOW records of direction Entry, and is undefined exactly when the
    vendor has none. *)
Theorem analytics_last_delivery (localMidnight : Z -> Z) (now : Z) (events : list CSE.t) :
  Forall (fun a =>
            match VA.lastDeliveryTime a with
            | None => vendorEntries (VA.vendorName a) events = []
            | Some t =>
                (exists e, In e (vendorEntries (VA.vendorName a) events) /\
                           CSE.timestamp e = t) /\
                Forall (fun e => CSE.timestamp e <= t) (vendorEntries (VA.vendorName a) events)
            end)
    (calculateVendorAnalytics localMidnight now events).
Proof.
  apply analytics_Forall. intros k. simpl.
  pose proof (head_sort_desc (vendorEntries k events)) as H.
  destruct (head (sort byTimeDesc (vendorEntries k events))) as [x|]; simpl.
  - destruct H as [Hin Hmax]. split; [now exists x|exact Hmax].
  - exact H.
Qed.

(** ** Bounds on the average duration *)

Lemma Qsum_bounds (M : Q) (ds : list Q) :
  Forall (fun d => 0 < d /\ d < M)%Q ds ->
  (0 <= Qsum ds /\ Qsum ds <= inject_Z (Z.of_nat (length ds)) * M)%Q /\
  (ds <> [] ->
   (0 < Qsum ds /\ Qsum ds < inject_Z (Z.of_nat (length ds)) * M)%Q).
Proof.
  induction 1 as [|d ds [Hd1 Hd2] _ [[IH1 IH2] _]].
  - split; [|intros H; now destruct H].
    change (0 <= 0 /\ 0 <= 0 * M)%Q. split; lra.
  - assert (Hn : (inject_Z (Z.of_nat (length (d :: ds)))
                  == inject_Z (Z.of_nat (length ds)) + 1)%Q).
    { simpl length. rewrite Nat2Z.inj_succ. unfold Z.succ. now rewrite inject_Z_plus. }
    simpl Qsum. rewrite Hn. split; [split; lra|]. intros _. split; lra.
Qed.

Lemma duration_bounds (exits entries : list CSE.t) :
  Forall (fun d => 0 < d /\ d < 1440)%Q (flat_map (durationOf exits) entries).
Proof.
  apply List.Forall_forall. intros d Hd.
  apply in_flat_map in Hd as (entry & _ & Hd). unfold durationOf in Hd.
  destruct (List.find (exitMatches entry) exits) as [x|] eqn:Hf; [|destruct Hd].
  destruct Hd as [<-|[]]. apply find_some in Hf as [_ Hm].
  unfold exitMatches, HOURS_24 in Hm. apply andb_true_iff in Hm as [H1 H2].
  apply Z.ltb_lt in H1, H2. unfold minutesBetween.
  set (ms := CSE.timestamp x - CSE.timestamp entry) in *.
  assert (H0 : (0 < inject_Z (1000 * 60))%Q) by reflexivity.
  split.
  - apply Qlt_shift_div_l; [exact H0|]. rewrite Qmult_0_l.
    change (inject_Z 0 < inject_Z ms)%Q. rewrite <- Zlt_Qlt. subst ms. lia.
  - apply Qlt_shift_div_r; [exact H0|].
    change 1440%Q with (inject_Z 1440).
    rewrite <- inject_Z_mult. rewrite <- Zlt_Qlt. subst ms. lia.
Qed.

(** X15. A defined [averageDuration] lies strictly between 0 and 1440
    minutes (24 hours), whatever the classified sequence. *)
Theorem analytics_average_bounds (localMidnight : Z -> Z) (now : Z) (events : list CSE.t) :
  Forall (fun a => forall q, VA.averageDuration a = Some q -> (0 < q /\ q < 1440)%Q)
    (calculateVendorAnalytics localMidnight now events).
Proof.
  apply analytics_Forall. intros k q. simpl.
  set (ds := flat_map (durationOf (vendorExits k events)) (vendorEntries k events)).
  intros Hq.
  destruct (average_spec ds) as [_ Hsome].
  destruct ds as [|d0 ds0] eqn:Hds; [discriminate|].
  destruct Hsome as (q' & Hq' & Heq); [discriminate|].
  rewrite Hq in Hq'. injection Hq' as <-.
  destruct (Qsum_bounds 1440 (d0 :: ds0)) as [_ Hb].
  { rewrite <- Hds. apply duration_bounds. }
  destruct Hb as [Hb1 Hb2]; [discriminate|].
  assert (Hn : (0 < inject_Z (Z.of_nat (length (d0 :: ds0))))%Q).
  { change (inject_Z 0 < inject_Z (Z.of_nat (length (d0 :: ds0))))%Q.
    rewrite <- Zlt_Qlt. simpl length. lia. }
  rewrite Heq. split.
  - apply Qlt_shift_div_l; [exact Hn|]. now rewrite Qmult_0_l.
  - apply Qlt_shift_div_r; [exact Hn|]. now rewrite Qmult_comm.
Qed.

(** ** Letter case *)









(** ** getVendorName *)





(** ** determineGateName *)

Lemma gateAt_token (s tok : string) :
  Str.gateAt s = Some tok ->
  tok = Str.takeAlnum (Str.skipSpaces (Str.drop 4 s)) /\ tok <> "" /\
  Str.startsWith (Str.toLowerCase (Str.take 4 s)) "gate" = true.
Proof.
  unfold Str.gateAt.
  destruct (Str.startsWith (Str.toLowerCase (Str.take 4 s)) "gate"); [|discriminate].
  destruct (String.eqb_spec (Str.takeAlnum (Str.skipSpaces (Str.drop 4 s))) "") as [|Hne];
    [discriminate|].
  intros [= <-]. now repeat split.
Qed.

Lemma matchGate_gateAt (s tok : string) :
  Str.matchGate s = Some tok ->
  exists pre rest, s = pre +:+ rest /\ Str.gateAt rest = Some tok.
Proof.
  induction s as [|c s IH].
  - simpl. discriminate.
  - change (Str.matchGate (String c s))
      with (match Str.gateAt (String c s) with
            | Some t => Some t
            | None => Str.matchGate s
            end).
    destruct (Str.gateAt (String c s)) eqn:Hg.
    + intros [= <-]. now exists "", (String c s).
    + intros H. destruct (IH H) as (pre & rest & -> & Hr).
      now exists (String c pre), rest.
Qed.

Lemma takeAlnum_all (s : string) : allChars Str.isAlnum (Str.takeAlnum s) = true.
Proof.
  induction s as [|c s IH]; simpl; [reflexivity|].
  destruct (Str.isAlnum c) eqn:Hc; simpl; [now rewrite Hc|reflexivity].
Qed.

Lemma matchGate_alnum (s tok : string) :
  Str.matchGate s = Some tok -> allChars Str.isAlnum tok = true /\ tok <> "".
Proof.
  intros H. apply matchGate_gateAt in H as (pre & rest & _ & Hg).
  apply gateAt_token in Hg as (-> & Hne & _). split; [apply takeAlnum_all|exact Hne].
Qed.

Lemma gate_label_cases (ruleName description : option string) :
  (exists r, ruleName = Some r /\ r <> "" /\
             Str.includes (Str.toLowerCase r) "gate" = true /\
             determineGateName ruleName description = r) \/
  (exists r, ruleName = Some r /\ r <> "" /\
             Str.includes (Str.toLowerCase r) "gate" = false /\
             determineGateName ruleName description = "Gate " +:+ r) \/
  (Str.truthy ruleName = false /\
   exists tok, allChars Str.isAlnum tok = true /\ tok <> "" /\
               determineGateName ruleName description = "Gate " +:+ tok) \/
  (Str.truthy ruleName = false /\ determineGateName ruleName description = "Main Gate").
Proof.
  unfold determineGateName. destruct ruleName as [r|]; simpl.
  - destruct (String.eqb_spec r "") as [->|Hne]; simpl.
    + right. right. destruct (Str.truthy description).
      * destruct (Str.matchGate (Str.orElse description "")) as [tok|] eqn:Hm.
        -- left. split; [reflexivity|]. exists tok.
           destruct (matchGate_alnum _ _ Hm). now repeat split.
        -- right. now split.
      * right. now split.
    + destruct (Str.includes (Str.toLowerCase r) "gate") eqn:Hi.
      * left. exists r. now repeat split.
      * right. left. exists r. now repeat split.
  - right. right. destruct (Str.truthy description).
    + destruct (Str.matchGate (Str.orElse description "")) as [tok|] eqn:Hm.
      * left. split; [reflexivity|]. exists tok.
        destruct (matchGate_alnum _ _ Hm). now repeat split.
      * right. now split.
    + right. now split.
Qed.

(** X17. Every gate label mentions "gate" (in some letter case) and is
    not empty; used as a rule name it is returned as it is, whatever the
    description. *)
Theorem gate_label_stable (ruleName description description' : option string) :
  Str.includes (Str.toLowerCase (determineGateName ruleName description)) "gate" = true /\
  determineGateName ruleName description <> "" /\
  determineGateName (Some (determineGateName ruleName description)) description' =
    determineGateName ruleName description.
Proof.
  assert (H : Str.includes (Str.toLowerCase (determineGateName ruleName description)) "gate"
              = true /\ determineGateName ruleName description <> "").
  { destruct (gate_label_cases ruleName description)
      as [(r & _ & Hne & Hi & ->)|[(r & _ & _ & _ & ->)|[(_ & tok & _ & _ & ->)|(_ & ->)]]].
    - now split.
    - split; [reflexivity|discriminate].
    - split; [reflexivity|discriminate].
    - split; [reflexivity|discriminate]. }
  destruct H as [Hi Hne]. split; [exact Hi|]. split; [exact Hne|].
  unfold determineGateName at 1. simpl.
  destruct (String.eqb_spec (determineGateName ruleName description) "") as [He|_];
    [contradiction|].
  simpl. now rewrite Hi.
Qed.

(** X18. Whether a record is skipped for its plate format depends on its
    rule name alone: it is, exactly when the rule name is
    "invalid_plate_format" or "Gate invalid_plate_format". No description
    makes the gate label the invalid-format one. *)
Theorem invalid_format_by_rule_name (e : Event.t) :
  invalidPlateFormat e = true <->
  Event.rule_name e = Some "invalid_plate_format" \/
  Event.rule_name e = Some "Gate invalid_plate_format".
Proof.
  unfold invalidPlateFormat, gateNameOf. rewrite orb_true_iff, String.eqb_eq. split.
  - intros [Hg|Hr].
    + destruct (gate_label_cases (Event.rule_name e) (Event.description e))
        as [(r & Hr & _ & _ & Hl)|[(r & Hr & _ & _ & Hl)|[(_ & tok & Ha & _ & Hl)|(_ & Hl)]]];
        rewrite Hl in Hg.
      * right. now rewrite Hr, Hg.
      * left. rewrite Hr.
        change ("Gate " +:+ r)
          with (String "G" (String "a" (String "t" (String "e" (String " " r))))) in Hg.
        injection Hg as Hg. now rewrite Hg.
      * change ("Gate " +:+ tok)
          with (String "G" (String "a" (String "t" (String "e" (String " " tok))))) in Hg.
        injection Hg as Hg. rewrite Hg in Ha. discriminate Ha.
      * discriminate Hg.
    + left. unfold Str.eqLit in Hr. destruct (Event.rule_name e) as [r|]; [|discriminate].
      now apply String.eqb_eq in Hr as ->.
  - intros [-> | ->]; [now right|now left].
Qed.

(** ** The deprecated [determineDirection] *)

(** X19. The deprecated [determineDirection] and the rule the loop now
    applies to records other than ALLOW give the same direction exactly
    when the decision is ALERT or the description holds no exit keyword. *)
Theorem determineDirection_agreement (eventType : string) (description : option string) :
  determineDirection eventType description = inferDirection eventType description <->
  eventType = "ALERT" \/ exitWords description = false.
Proof.
  unfold determineDirection, inferDirection.
  destruct (String.eqb_spec eventType "ALERT") as [->|Hne];
    destruct (exitWords description), (entryWords description); simpl;
    split; intros H; try reflexivity; try discriminate H; auto;
    destruct H as [H|H]; congruence.
Qed.

(** ** determineVehicleCategory *)

(** X20. No classified record has category Unknown, and the category does
    not depend on the plate. *)
Theorem category_never_unknown (events : list Event.t) (p p' : string)
    (description : option string) :
  Forall (fun c => CSE.vehicleCategory c <> Unknown)
    (transformToConstructionSiteEvents events) /\
  determineVehicleCategory p description = determineVehicleCategory p' description.
Proof.
  split; [|reflexivity].
  apply List.Forall_forall. intros c Hc.
  apply transform_In, run_origin in Hc as (e & d & _ & _ & ->). simpl.
  unfold determineVehicleCategory.
  repeat match goal with |- context [if ?b then _ else _] => destruct b end; discriminate.
Qed.

(** ** The gate pattern *)

Lemma take_drop (n : nat) (s : string) : s = Str.take n s +:+ Str.drop n s.
Proof.
  revert s. induction n as [|n IH]; intros [|c s]; try reflexivity.
  change (String c s = String c (Str.take n s +:+ Str.drop n s)). f_equal. apply IH.
Qed.

Lemma alnum_not_space (c : ascii) : Str.isAlnum c = true -> Str.isSpace c = false.
Proof. destruct c as [[] [] [] [] [] [] [] []]; simpl; intros H; try reflexivity; discriminate H. Qed.

Lemma append_cons (c : ascii) (a b : string) : String c a +:+ b = String c (a +:+ b).
Proof. reflexivity. Qed.

Lemma append_empty (b : string) : "" +:+ b = b.
Proof. reflexivity. Qed.

Lemma skipSpaces_split (s : string) :
  exists ws, s = ws +:+ Str.skipSpaces s /\ allChars Str.isSpace ws = true /\
             endsRun Str.isSpace (Str.skipSpaces s).
Proof.
  induction s as [|c s (ws & Hs & Hws & He)].
  - now exists "".
  - simpl Str.skipSpaces. destruct (Str.isSpace c) eqn:Hc.
    + exists (String c ws). rewrite append_cons, <- Hs. simpl allChars.
      rewrite Hc, Hws. now repeat split.
    + exists "". rewrite append_empty. simpl. now repeat split.
Qed.

Lemma skipSpaces_app (ws r : string) :
  allChars Str.isSpace ws = true -> endsRun Str.isSpace r ->
  Str.skipSpaces (ws +:+ r) = r.
Proof.
  intros Hws Hr. induction ws as [|c ws IH].
  - rewrite append_empty. destruct r as [|c r]; simpl in *; [reflexivity|now rewrite Hr].
  - rewrite append_cons. simpl in *.
    apply andb_true_iff in Hws as [Hc Hws]. rewrite Hc. now apply IH.
Qed.

Lemma takeAlnum_split (s : string) :
  exists post, s = Str.takeAlnum s +:+ post /\ endsRun Str.isAlnum post.
Proof.
  induction s as [|c s (post & Hs & Hp)].
  - now exists "".
  - simpl Str.takeAlnum. destruct (Str.isAlnum c) eqn:Hc.
    + exists post. rewrite append_cons, <- Hs. now split.
    + exists (String c s). rewrite append_empty. now split.
Qed.

Lemma takeAlnum_app (tok post : string) :
  allChars Str.isAlnum tok = true -> endsRun Str.isAlnum post ->
  Str.takeAlnum (tok +:+ post) = tok.
Proof.
  intros Htok Hp. induction tok as [|c tok IH].
  - rewrite append_empty. destruct post as [|c post]; simpl in *; [reflexivity|now rewrite Hp].
  - rewrite append_cons. simpl in *.
    apply andb_true_iff in Htok as [Hc Htok]. rewrite Hc. now rewrite IH.
Qed.

Lemma lower_gate_inv (g : string) :
  Str.toLowerCase g = "gate" ->
  exists a b c d, g = String a (String b (String c (String d ""))).
Proof.
  destruct g as [|a [|b [|c [|d [|x g]]]]]; simpl; try discriminate.
  intros _. now exists a, b, c, d.
Qed.

Lemma starts_gate (s : string) :
  Str.startsWith (Str.toLowerCase (Str.take 4 s)) "gate" = true ->
  Str.toLowerCase (Str.take 4 s) = "gate".
Proof.
  destruct s as [|a [|b [|c [|d s]]]];
    cbn [Str.take Str.toLowerCase Str.startsWith]; try discriminate;
    rewrite !andb_true_iff, ?Ascii.eqb_eq.
  - intros (_ & H). discriminate H.
  - intros (_ & _ & H). discriminate H.
  - intros (_ & _ & _ & H). discriminate H.
  - intros (<- & <- & <- & <- & _). reflexivity.
Qed.

Lemma gateAt_spec (rest tok : string) :
  Str.gateAt rest = Some tok <-> gateMatchAt rest tok.
Proof.
  split.
  - intros H. apply gateAt_token in H as (Htok & Hne & Hg).
    apply starts_gate in Hg.
    destruct (skipSpaces_split (Str.drop 4 rest)) as (ws & Hd & Hws & _).
    destruct (takeAlnum_split (Str.skipSpaces (Str.drop 4 rest))) as (post & Hs & Hp).
    exists (Str.take 4 rest), ws, post. rewrite <- Htok in Hs.
    split; [|split; [exact Hg|split; [exact Hws|]]].
    + rewrite <- Hs, <- Hd. apply take_drop.
    + split; [rewrite Htok; apply takeAlnum_all|]. now split.
  - intros (g & ws & post & -> & Hg & Hws & Htok & Hne & Hp).
    destruct (lower_gate_inv g Hg) as (a & b & c & d & ->).
    unfold Str.gateAt.
    change (Str.take 4 (String a (String b (String c (String d "")))
                        +:+ ws +:+ tok +:+ post))
      with (String a (String b (String c (String d "")))).
    rewrite Hg. cbn [Str.startsWith Ascii.eqb]. simpl Str.startsWith.
    change (Str.drop 4 (String a (String b (String c (String d "")))
                        +:+ ws +:+ tok +:+ post))
      with (ws +:+ tok +:+ post).
    rewrite skipSpaces_app, takeAlnum_app; try assumption.
    + destruct (String.eqb_spec tok ""); [contradiction|reflexivity].
    + destruct tok as [|t tok]; [contradiction|]. simpl in *.
      apply andb_true_iff in Htok as [Ht _]. now apply alnum_not_space.
Qed.

Lemma matchGate_leftmost (s : string) :
  match Str.matchGate s with
  | Some tok =>
      exists pre rest, s = pre +:+ rest /\ Str.gateAt rest = Some tok /\
        forall pre' rest', s = pre' +:+ rest' ->
          (String.length pre' < String.length pre)%nat -> Str.gateAt rest' = None
  | None => forall pre rest, s = pre +:+ rest -> Str.gateAt rest = None
  end.
Proof.
  induction s as [|c s IH].
  - simpl. intros [|x pre] rest H; [|discriminate]. rewrite append_empty in H. now subst rest.
  - change (Str.matchGate (String c s))
      with (match Str.gateAt (String c s) with
            | Some t => Some t
            | None => Str.matchGate s
            end).
    destruct (Str.gateAt (String c s)) as [tok|] eqn:Hg.
    + exists "", (String c s). split; [reflexivity|]. split; [exact Hg|].
      intros pre' rest' _ Hlt. simpl in Hlt. lia.
    + destruct (Str.matchGate s) as [tok|].
      * destruct IH as (pre & rest & -> & Hr & Hmin).
        exists (String c pre), rest. split; [reflexivity|]. split; [exact Hr|].
        intros [|x pre'] rest' H Hlt.
        -- rewrite append_empty in H. now subst rest'.
        -- rewrite !append_cons in H. simpl in Hlt. injection H as _ H.
           apply (Hmin pre' rest' H). lia.
      * intros [|x pre] rest H.
        -- rewrite append_empty in H. now subst rest.
        -- rewrite append_cons in H. injection H as _ H. now apply (IH pre rest).
Qed.

(** X21. The gate token taken from a description is the one of the
    leftmost place where the letters "gate" (in any case) are followed by
    optional white space and at least one letter or digit: the token is
    the longest run of letters and digits there; there is no token
    exactly when the description has no such place. *)
Theorem matchGate_correct (s : string) :
  match Str.matchGate s with
  | Some tok =>
      exists pre rest, s = pre +:+ rest /\ gateMatchAt rest tok /\
        forall pre' rest' tok', s = pre' +:+ rest' ->
          (String.length pre' < String.length pre)%nat -> ~ gateMatchAt rest' tok'
  | None => forall pre rest tok, s = pre +:+ rest -> ~ gateMatchAt rest tok
  end.
Proof.
  pose proof (matchGate_leftmost s) as H.
  destruct (Str.matchGate s) as [tok|].
  - destruct H as (pre & rest & Hs & Hg & Hmin). exists pre, rest.
    split; [exact Hs|]. split; [now apply gateAt_spec|].
    intros pre' rest' tok' Hs' Hlt Hm. apply gateAt_spec in Hm.
    rewrite (Hmin pre' rest' Hs' Hlt) in Hm. discriminate.
  - intros pre rest tok Hs Hm. apply gateAt_spec in Hm.
    rewrite (H pre rest Hs) in Hm. discriminate.
Qed.

(** ** Plates do not interfere *)

Lemma filter_idem {A : Type} (f : A -> bool) (l : list A) :
  List.filter f (List.filter f l) = List.filter f l.
Proof.
  rewrite filter_and. apply filter_ext_In. intros x _. now destruct (f x).
Qed.

(** X22. What the tracker does for a plate, the state it keeps and the
    authorised records it classifies, is what it would do if the input
    held that plate's tracked records only: records of other plates and
    records of other decisions have no influence on it. *)
Theorem plates_do_not_interfere (events : list Event.t) (p : string) :
  fst (trackSessions events) !! p =
    fst (trackSessions (List.filter (trackedFor p) events)) !! p /\
  List.filter (allowedFor p) (transformToConstructionSiteEvents events) =
    List.filter (allowedFor p)
      (transformToConstructionSiteEvents (List.filter (trackedFor p) events)).
Proof.
  split.
  - now rewrite !plate_stored, filter_idem.
  - now rewrite !plate_classified, filter_idem.
Qed.

(** ** The class of an alert type *)





